(** * Streamlit data-app starter: the cached mock loader and its view logic

    A shallow embedding of [streamlit_app.py]: the synthetic data loader
    [load_mock], the client-side date filter, the empty-state guards of the
    script, the break-down tab (group by / sum / sort / head) and the
    time-to-live cache put around [load_mock] by [@st.cache_data(ttl=600)].

    Conventions of the embedding.
    - A calendar date is the number of days since the Unix epoch, an
      instant is a number of seconds since the epoch, both in [Z].
    - [float64] values are idealised as exact rationals ([Q]); rounding to
      two decimals is round-half-to-even on the exact value.
    - NumPy's random generator is an interface ([Generator]) carrying the
      documented contract of [integers] and [uniform]; [Lcg] is a small
      instance used to execute the model.
    - A Python exception is [None] in an [option] result, or [Raised] in
      the outcome of the script. *)

From Stdlib Require Import String Bool Arith PeanoNat ZArith QArith Qround
  Lia Lqa List Finite Permutation Sorted Orders Mergesort.
Import ListNotations.

Open Scope Z_scope.

(** ** Small option monad for code that can raise *)

Definition obind {A B : Type} (m : option A) (k : A -> option B) : option B :=
  match m with
  | Some a => k a
  | None => None
  end.

Notation "x <- m ;; k" := (obind m (fun x => k))
  (at level 61, m at next level, right associativity).

(** ** Data model *)

(** One row of the frame returned by [load_mock]. *)
Record Row : Type := mkRow {
  day : Z;
  project : string;
  tx_count : Z;
  amount_usd : Q
}.

Definition DataFrame : Type := list Row.

(** The key of a row: the (day, project) pair. *)
Definition key (r : Row) : Z * string := (day r, project r).

(** ** NumPy's [Generator], as an interface *)

Class Generator : Type := {
  rng_state : Type;
  (** [np.random.default_rng(seed)] *)
  default_rng : Z -> rng_state;
  (** [rs.integers(low, high, size=n)]: the draws and the advanced state *)
  integers : Z -> Z -> nat -> rng_state -> list Z * rng_state;
  (** [rs.uniform(low, high, size=n)] *)
  uniform : Q -> Q -> nat -> rng_state -> list Q * rng_state;
  integers_size : forall lo hi n s,
    length (fst (integers lo hi n s)) = n;
  integers_bounds : forall lo hi n s, lo < hi ->
    Forall (fun x => lo <= x < hi) (fst (integers lo hi n s));
  uniform_size : forall lo hi n s,
    length (fst (uniform lo hi n s)) = n;
  uniform_bounds : forall lo hi n s, (lo < hi)%Q ->
    Forall (fun u => (lo <= u)%Q /\ (u < hi)%Q) (fst (uniform lo hi n s))
}.

(** ** Calendar and array helpers *)

Definition seconds_per_day : Z := 86400.

(** [pd.Timestamp.utcnow().normalize()]: the UTC date of the instant. *)
Definition utc_today (now : Z) : Z := now / seconds_per_day.

(** [pd.date_range(end=e, periods=n, freq="D")]: the [n] days ending at [e]. *)
Definition date_range (e : Z) (n : nat) : list Z :=
  map (fun i => e - Z.of_nat (n - 1) + Z.of_nat i) (seq 0 n).

(** [np.repeat(a, k)]: every element repeated [k] times in place. *)
Definition np_repeat {A : Type} (a : list A) (k : nat) : list A :=
  flat_map (fun x => repeat x k) a.

(** [t * n] on a tuple: [n] copies of the whole tuple, one after another. *)
Definition tuple_mul {A : Type} (t : list A) (n : nat) : list A :=
  concat (repeat t n).

(** Adding a column to a frame: pandas raises [ValueError] when the length
    of the column is not the length of the frame. *)
Definition with_column {A B : Type} (df : list A) (col : list B)
  : option (list (A * B)) :=
  if Nat.eqb (length df) (length col) then Some (combine df col) else None.

(** [series * array], element-wise; lengths must agree. *)
Definition series_mul (xs : list Z) (us : list Q) : option (list Q) :=
  if Nat.eqb (length xs) (length us)
  then Some (map (fun xu => (inject_Z (fst xu) * snd xu)%Q) (combine xs us))
  else None.

(** Round half to even, on an exact rational. *)
Definition rint (q : Q) : Z :=
  let f := Qfloor q in
  match ((q - inject_Z f) ?= (1 # 2))%Q with
  | Lt => f
  | Gt => f + 1
  | Eq => if Z.even f then f else f + 1
  end.

(** [x.round(2)] *)
Definition round2 (q : Q) : Q := (inject_Z (rint (q * 100)) / 100)%Q.

Definition to_row (c : Z * string * Z * Q) : Row :=
  let '(d, p, t, a) := c in mkRow d p t a.

(** ** The loader *)

Section Loader.

Context {G : Generator}.

(** [load_mock(days, projects)], run at instant [now]. The day count is a
    [nat]: the slider of the script yields 7 to 180, and pandas refuses a
    negative number of periods. *)
Definition load_mock (now : Z) (days : nat) (projects : list string)
  : option DataFrame :=
  let rng := date_range (utc_today now) days in
  df <- with_column (np_repeat rng (length projects))
                    (tuple_mul projects (length rng)) ;;
  let rs := default_rng 42 in
  let '(tx, rs) := integers 800 3000 (length df) rs in
  df <- with_column df tx ;;
  let '(u, rs) := uniform (1 # 2) 2 (length df) rs in
  prod <- series_mul (map snd df) u ;;
  df <- with_column df (map round2 prod) ;;
  Some (map to_row df).

End Loader.

(** ** The client-side date filter *)

(** [d1[0]] on the tuple returned by the date input; [IndexError] when the
    tuple is empty. *)
Definition tuple_first (d1 : list Z) : option Z := hd_error d1.

(** [d1[-1]] *)
Definition tuple_last (d1 : list Z) : option Z := hd_error (rev d1).

(** [df[(df["day"].dt.date >= d1[0]) & (df["day"].dt.date <= d1[-1])]] *)
Definition date_filter (d1 : list Z) (df : DataFrame) : option DataFrame :=
  lo <- tuple_first d1 ;;
  hi <- tuple_last d1 ;;
  Some (filter (fun r => (lo <=? day r) && (day r <=? hi)) df).

(** ** The cache of [@st.cache_data(ttl=600)] *)

(** Streamlit keeps one entry per tuple of arguments, serves it while it
    is younger than the time to live, and runs the function again once it
    has expired. The cache reads its own clock, apart from the wall clock
    the loader takes the date from. *)

Definition ttl : Z := 600.

(** The arguments of a call are the key of its cache entry. *)
Definition CacheKey : Type := (nat * list string)%type.

Definition key_eq_dec (a b : CacheKey) : {a = b} + {a <> b}.
Proof.
  decide equality.
  - apply (list_eq_dec string_dec).
  - apply Nat.eq_dec.
Defined.

Record Entry : Type := mkEntry {
  e_key : CacheKey;
  e_value : DataFrame;
  e_time : Z
}.

Definition Cache : Type := list Entry.

Fixpoint lookup (k : CacheKey) (c : Cache) : option Entry :=
  match c with
  | [] => None
  | e :: c' => if key_eq_dec (e_key e) k then Some e else lookup k c'
  end.

Definition evict (k : CacheKey) (c : Cache) : Cache :=
  filter (fun e => if key_eq_dec (e_key e) k then false else true) c.

Definition store (k : CacheKey) (v : DataFrame) (clock : Z) (c : Cache)
  : Cache :=
  mkEntry k v clock :: evict k c.

(** An entry is served while less than [ttl] seconds old. *)
Definition live (clock : Z) (e : Entry) : bool := clock <? e_time e + ttl.

Section Script.

Context {G : Generator}.

(** A call of the decorated [load_mock] at cache time [clock] and wall-clock
    instant [now]: a live entry is returned as it is, otherwise the body
    runs and its result replaces the entry. An exception stores nothing. *)
Definition cached_load_mock (c : Cache) (clock now : Z) (days : nat)
  (projects : list string) : option (DataFrame * Cache) :=
  let k := (days, projects) in
  let run :=
    df <- load_mock now days projects ;;
    Some (df, store k df clock c) in
  match lookup k c with
  | Some e => if live clock e then Some (e_value e, c) else run
  | None => run
  end.

(** ** The script, from the sidebar to the empty-state guards *)

Definition all_projects : list string :=
  ["uniswap"; "aave"; "curve"; "balancer"; "sushiswap"]%string.

(** What one rerun reads: the clocks and the values of the sidebar widgets
    (the slider, the multiselect and the tuple of the date input). *)
Record Inputs : Type := mkInputs {
  in_clock : Z;
  in_now : Z;
  in_days : nat;
  in_selected : list string;
  in_d1 : list Z
}.

Inductive Message : Type :=
  | Info (text : string)
  | Warning (text : string).

Inductive Outcome : Type :=
  | Raised
  | Stopped (m : Message)
  | Rendered (df : DataFrame).

(** [tuple(selected) if selected else tuple(all_projects)] *)
Definition load_projects (selected : list string) : list string :=
  match selected with
  | [] => all_projects
  | _ :: _ => selected
  end.

(** The arguments of the one call of [load_mock] in a rerun. *)
Definition load_call (i : Inputs) : CacheKey :=
  (in_days i, load_projects (in_selected i)).

Definition script (c : Cache) (i : Inputs) : Outcome * Cache :=
  match cached_load_mock c (in_clock i) (in_now i)
          (fst (load_call i)) (snd (load_call i)) with
  | None => (Raised, c)
  | Some (df, c') =>
    match date_filter (in_d1 i) df with
    | None => (Raised, c')
    | Some df =>
      match in_selected i with
      | [] => (Stopped (Info "Select at least one project in the sidebar."), c')
      | _ :: _ =>
        match df with
        | [] => (Stopped (Warning "No rows for this date range."), c')
        | _ :: _ => (Rendered df, c')
        end
      end
    end
  end.

End Script.

(** ** The break-down tab *)

Inductive Metric : Type :=
  | metric_amount_usd
  | metric_tx_count.

Definition measure (m : Metric) (r : Row) : Q :=
  match m with
  | metric_amount_usd => amount_usd r
  | metric_tx_count => inject_Z (tx_count r)
  end.

Definition Qsum (l : list Q) : Q := fold_right Qplus 0%Q l.

Module StringOrder <: TotalLeBool.
Definition t := string.
Definition leb := String.leb.
Definition leb_total : forall a b, leb a b = true \/ leb b a = true :=
  String.leb_total.
End StringOrder.

Module StringSort := Sort StringOrder.

(** Descending order on the summed measure. *)
Definition desc_leb (x y : string * Q) : bool := Qle_bool (snd y) (snd x).

(** A row put in its place among rows already in descending order: before
    the first row whose sum is not greater than its own. *)
Fixpoint insert_desc (x : string * Q) (l : list (string * Q))
  : list (string * Q) :=
  match l with
  | [] => [x]
  | y :: l' => if desc_leb x y then x :: y :: l' else y :: insert_desc x l'
  end.

(** The rows of one group. *)
Definition group (p : string) (df : DataFrame) : DataFrame :=
  filter (fun r => String.eqb (project r) p) df.

(** The group keys, as [groupby] lists them: distinct and sorted. *)
Definition group_keys (df : DataFrame) : list string :=
  StringSort.sort (nodup string_dec (map project df)).

(** [df.groupby("project", as_index=False)[metric].sum()] *)
Definition groupby_sum (m : Metric) (df : DataFrame) : list (string * Q) :=
  map (fun p => (p, Qsum (map (measure m) (group p df)))) (group_keys df).

(** [.sort_values(metric, ascending=False)]: pandas reverses the rows,
    sorts them ascending with NumPy's sort and reverses the result. On a
    handful of rows, as the five candidate projects give, NumPy sorts by
    insertion, so rows with equal sums keep the order [groupby] left them
    in. *)
Definition sort_values_desc (g : list (string * Q)) : list (string * Q) :=
  fold_right insert_desc [] g.

(** [.head(n)] *)
Definition head {A : Type} (n : nat) (l : list A) : list A := firstn n l.

(** The frame shown in the break-down tab; its dimension selector offers
    ["project"] alone. *)
Definition breakdown (m : Metric) (topn : nat) (df : DataFrame)
  : list (string * Q) :=
  head topn (sort_values_desc (groupby_sum m df)).

(** ** Session state: the walk-through flag *)

(** [st.session_state], as far as the script uses it: the key
    ["ack_walkthrough"] is missing ([None]) or holds a boolean. *)
Definition SessionState : Type := option bool.

(** What the expander shows below its text. *)
Inductive Widget : Type :=
  | GotItButton
  | Toast.

(** The session-state block and the expander of one rerun; [clicked] is
    what [st.button("Got it")] returns when it is reached. *)
Definition walkthrough (s : SessionState) (clicked : bool)
  : SessionState * list Widget :=
  let ack := match s with
             | None => false
             | Some b => b
             end in
  if negb ack
  then if clicked then (Some true, [GotItButton; Toast])
       else (Some ack, [GotItButton])
  else (Some ack, []).

(** The reruns of one session, one click flag per rerun: the final state
    and what each rerun showed. *)
Fixpoint session (s : SessionState) (clicks : list bool)
  : SessionState * list (list Widget) :=
  match clicks with
  | [] => (s, [])
  | b :: clicks' =>
    let '(s', shown) := walkthrough s b in
    let '(s'', rest) := session s' clicks' in
    (s'', shown :: rest)
  end.

(** ** Sidebar defaults *)

(** The default value of the date input,
    [(d2 - timedelta(days=days-1), d2)], for [d2 = date.today()]. *)
Definition default_date_range (d2 : Z) (days : nat) : list Z :=
  [d2 - (Z.of_nat days - 1); d2].

(** ** The row of key metrics and the chart *)

(** [len(df)] *)
Definition kpi_rows (df : DataFrame) : nat := length df.

(** [df["project"].nunique()] *)
Definition kpi_projects (df : DataFrame) : nat :=
  length (nodup string_dec (map project df)).

(** [series.min()] and [series.max()]; [None] stands for the [NaT] of an
    empty series. *)
Definition series_min (l : list Z) : option Z :=
  match l with
  | [] => None
  | x :: l' => Some (fold_left Z.min l' x)
  end.

Definition series_max (l : list Z) : option Z :=
  match l with
  | [] => None
  | x :: l' => Some (fold_left Z.max l' x)
  end.

(** [df['day'].min().date()] and [df['day'].max().date()] *)
Definition kpi_coverage (df : DataFrame) : option Z * option Z :=
  (series_min (map day df), series_max (map day df)).

(** [df['amount_usd'].sum()] *)
Definition kpi_volume (df : DataFrame) : Q := Qsum (map amount_usd df).

Lemma day_leb_total : forall a b : Z, (a <=? b) = true \/ (b <=? a) = true.
Proof. intros a b. rewrite !Z.leb_le. lia. Qed.

Module DayOrder <: TotalLeBool.
Definition t := Z.
Definition leb := Z.leb.
Definition leb_total := day_leb_total.
End DayOrder.

Module DaySort := Sort DayOrder.

(** The rows of one day. *)
Definition on_day (d : Z) (df : DataFrame) : DataFrame :=
  filter (fun r => day r =? d) df.

(** [df.groupby("day", as_index=False)["amount_usd"].sum()]: one row per
    day of the frame, days ascending. *)
Definition daily (df : DataFrame) : list (Z * Q) :=
  map (fun d => (d, Qsum (map amount_usd (on_day d df))))
    (DaySort.sort (nodup Z.eq_dec (map day df))).

(** ** A linear congruential generator, to execute the model *)

Module Lcg.

Definition next (s : Z) : Z :=
  (6364136223846793005 * s + 1442695040888963407) mod 2 ^ 64.

Fixpoint draws (n : nat) (s : Z) : list Z * Z :=
  match n with
  | O => ([], s)
  | S n' => let s' := next s in
            let '(l, s'') := draws n' s' in (s' :: l, s'')
  end.

Definition integers (lo hi : Z) (n : nat) (s : Z) : list Z * Z :=
  let '(raw, s') := draws n s in
  (map (fun r => lo + (r / 2 ^ 32) mod (hi - lo)) raw, s').

(** The fraction of a raw draw, in [[0, 1)]. *)
Definition unit (r : Z) : Q := inject_Z (r / 2 ^ 11) / inject_Z (2 ^ 53).

Definition uniform (lo hi : Q) (n : nat) (s : Z) : list Q * Z :=
  let '(raw, s') := draws n s in
  (map (fun r => (lo + (hi - lo) * unit r)%Q) raw, s').

End Lcg.

(** The stand-in generator meets the interface. *)

Module LcgFacts.

Lemma draws_length n : forall s, length (fst (Lcg.draws n s)) = n.
Proof.
  induction n as [| n IH]; intros s; simpl; [reflexivity |].
  specialize (IH (Lcg.next s)).
  destruct (Lcg.draws n (Lcg.next s)) as [l s'']. simpl in *. now rewrite IH.
Qed.

Lemma draws_range n : forall s,
  Forall (fun r => 0 <= r < 2 ^ 64) (fst (Lcg.draws n s)).
Proof.
  induction n as [| n IH]; intros s; simpl; [constructor |].
  specialize (IH (Lcg.next s)).
  destruct (Lcg.draws n (Lcg.next s)) as [l s'']. simpl in *.
  constructor; [| exact IH].
  unfold Lcg.next. apply Z.mod_pos_bound. reflexivity.
Qed.

Lemma integers_length lo hi n s :
  length (fst (Lcg.integers lo hi n s)) = n.
Proof.
  unfold Lcg.integers. pose proof (draws_length n s) as H.
  destruct (Lcg.draws n s) as [raw s']. simpl in *.
  now rewrite length_map.
Qed.

Lemma integers_range lo hi n s : lo < hi ->
  Forall (fun x => lo <= x < hi) (fst (Lcg.integers lo hi n s)).
Proof.
  intros Hlt. unfold Lcg.integers.
  destruct (Lcg.draws n s) as [raw s']. simpl.
  apply Forall_forall. intros x Hx. apply in_map_iff in Hx.
  destruct Hx as [r [<- _]].
  pose proof (Z.mod_pos_bound (r / 2 ^ 32) (hi - lo)). lia.
Qed.

Lemma unit_range r :
  0 <= r < 2 ^ 64 -> (0 <= Lcg.unit r)%Q /\ (Lcg.unit r < 1)%Q.
Proof.
  intros Hr. unfold Lcg.unit.
  assert (H0 : 0 <= r / 2 ^ 11 < 2 ^ 53).
  { split; [apply Z.div_pos; lia |].
    apply Z.div_lt_upper_bound; [reflexivity |].
    change (2 ^ 11 * 2 ^ 53) with (2 ^ 64). lia. }
  assert (Hd : (0 < inject_Z (2 ^ 53))%Q) by reflexivity.
  split.
  - apply Qle_shift_div_l; [exact Hd |]. rewrite Qmult_0_l.
    change 0%Q with (inject_Z 0). rewrite <- Zle_Qle. lia.
  - apply Qlt_shift_div_r; [exact Hd |]. rewrite Qmult_1_l.
    rewrite <- Zlt_Qlt. lia.
Qed.

Lemma uniform_length lo hi n s :
  length (fst (Lcg.uniform lo hi n s)) = n.
Proof.
  unfold Lcg.uniform. pose proof (draws_length n s) as H.
  destruct (Lcg.draws n s) as [raw s']. simpl in *.
  now rewrite length_map.
Qed.

Lemma uniform_range lo hi n s : (lo < hi)%Q ->
  Forall (fun u => (lo <= u)%Q /\ (u < hi)%Q) (fst (Lcg.uniform lo hi n s)).
Proof.
  intros Hlt. unfold Lcg.uniform. pose proof (draws_range n s) as Hr.
  destruct (Lcg.draws n s) as [raw s']. simpl in *.
  apply Forall_forall. intros u Hu. apply in_map_iff in Hu.
  destruct Hu as [r [<- Hin]].
  rewrite Forall_forall in Hr. destruct (unit_range r (Hr r Hin)) as [H0 H1].
  split; nra.
Qed.

End LcgFacts.

Definition lcg : Generator := {|
  rng_state := Z;
  default_rng := fun seed => seed;
  integers := Lcg.integers;
  uniform := Lcg.uniform;
  integers_size := LcgFacts.integers_length;
  integers_bounds := LcgFacts.integers_range;
  uniform_size := LcgFacts.uniform_length;
  uniform_bounds := LcgFacts.uniform_range
|}.

(** ** Notions used in the statements *)

Definition pair_key_dec (a b : Z * string) : {a = b} + {a <> b}.
Proof. decide equality; [apply string_dec | apply Z.eq_dec]. Defined.

(** [subsequence l1 l2]: [l1] is [l2] with some elements left out. *)
Inductive subsequence {A : Type} : list A -> list A -> Prop :=
  | sub_nil : subsequence [] []
  | sub_skip x l1 l2 : subsequence l1 l2 -> subsequence l1 (x :: l2)
  | sub_keep x l1 l2 : subsequence l1 l2 -> subsequence (x :: l1) (x :: l2).

(** The summed measure of the group of one project. *)
Definition group_sum (m : Metric) (p : string) (df : DataFrame) : Q :=
  Qsum (map (measure m) (group p df)).

(** Descending on the summed measure. *)
Definition desc_le (x y : string * Q) : Prop := (snd y <= snd x)%Q.

(** The overlap of the interval [[lo, hi]] with the [n] days ending at
    [e], as a number of days. *)
Definition overlap (e : Z) (n : nat) (lo hi : Z) : nat :=
  Z.to_nat (Z.min hi e - Z.max lo (e - Z.of_nat n + 1) + 1).

Definition widget_eq_dec (a b : Widget) : {a = b} + {a <> b}.
Proof. decide equality. Defined.

(** The flag, read as the script reads it. *)
Definition acknowledged (s : SessionState) : bool :=
  match s with
  | Some true => true
  | _ => false
  end.

(** Following the words of the specification: the sum of one column over
    the rows of one project, row by row. *)
Fixpoint total_of (f : Row -> Q) (p : string) (df : DataFrame) : Q :=
  match df with
  | [] => 0%Q
  | r :: df' =>
    if string_dec (project r) p then (f r + total_of f p df')%Q
    else total_of f p df'
  end.

Section Statements.

Context {G : Generator}.

(** The draws of one run on a frame of [n] rows: the generator is created
    from the seed 42 inside the call, so they depend on [n] alone. *)
Definition tx_draws (n : nat) : list Z :=
  fst (integers 800 3000 n (default_rng 42)).

Definition factor_draws (n : nat) : list Q :=
  fst (uniform (1 # 2) 2 n (snd (integers 800 3000 n (default_rng 42)))).

Definition amounts (n : nat) : list Q :=
  map round2
    (map (fun xu => (inject_Z (fst xu) * snd xu)%Q)
       (combine (tx_draws n) (factor_draws n))).

(** The frame [load_mock] returns, column by column. *)
Definition frame_of (now : Z) (days : nat) (projects : list string)
  : DataFrame :=
  let n := (days * length projects)%nat in
  map to_row
    (combine
       (combine
          (combine (np_repeat (date_range (utc_today now) days)
                      (length projects))
             (tuple_mul projects days))
          (tx_draws n))
       (amounts n)).

(** Every entry of the cache holds a frame that a run of [load_mock] on
    the arguments of its key returned: so it is of the empty cache, and
    so it stays under [cached_load_mock]. *)
Definition generated (c : Cache) : Prop :=
  forall e, In e c ->
    exists now,
      load_mock now (fst (e_key e)) (snd (e_key e)) = Some (e_value e).

(** The call is answered from the cache. *)
Definition served (c : Cache) (clock : Z) (k : CacheKey) : bool :=
  match lookup k c with
  | Some e => live clock e
  | None => false
  end.

End Statements.

(** * Properties *)

(** ** Lists and columns *)

Lemma np_repeat_length {A : Type} (a : list A) (k : nat) :
  length (np_repeat a k) = (length a * k)%nat.
Proof.
  unfold np_repeat. induction a as [| x a IH]; simpl; [reflexivity |].
  now rewrite length_app, repeat_length, IH.
Qed.

Lemma tuple_mul_length {A : Type} (t : list A) (n : nat) :
  length (tuple_mul t n) = (n * length t)%nat.
Proof.
  unfold tuple_mul. induction n as [| n IH]; simpl; [reflexivity |].
  now rewrite length_app, IH.
Qed.

Lemma date_range_length e n : length (date_range e n) = n.
Proof. unfold date_range. now rewrite length_map, length_seq. Qed.

Lemma with_column_same_length {A B : Type} (df : list A) (col : list B) :
  length df = length col -> with_column df col = Some (combine df col).
Proof. intros H. unfold with_column. now rewrite H, Nat.eqb_refl. Qed.

Lemma combine_length_same {A B : Type} (a : list A) (b : list B) :
  length a = length b -> length (combine a b) = length a.
Proof. intros H. rewrite length_combine, <- H. apply Nat.min_id. Qed.

Lemma map_fst_combine {A B : Type} (a : list A) : forall b : list B,
  length a = length b -> map fst (combine a b) = a.
Proof.
  induction a as [| x a IH]; intros [| y b] H; simpl in *;
    try discriminate; [reflexivity |].
  f_equal. apply IH. now injection H.
Qed.

Lemma map_snd_combine {A B : Type} (a : list A) : forall b : list B,
  length a = length b -> map snd (combine a b) = b.
Proof.
  induction a as [| x a IH]; intros [| y b] H; simpl in *;
    try discriminate; [reflexivity |].
  f_equal. apply IH. now injection H.
Qed.

Section LoaderFacts.

Context {G : Generator}.

Lemma tx_draws_length n : length (tx_draws n) = n.
Proof. apply integers_size. Qed.

Lemma factor_draws_length n : length (factor_draws n) = n.
Proof. apply uniform_size. Qed.

Lemma amounts_length n : length (amounts n) = n.
Proof.
  unfold amounts. rewrite !length_map, combine_length_same;
    now rewrite tx_draws_length, ?factor_draws_length.
Qed.

(** [load_mock] never raises: the columns it puts together have one
    length. *)
Lemma load_mock_frame now days projects :
  load_mock now days projects = Some (frame_of now days projects).
Proof.
  unfold load_mock, frame_of.
  set (D := np_repeat (date_range (utc_today now) days) (length projects)).
  rewrite date_range_length.
  set (P := tuple_mul projects days).
  set (n := (days * length projects)%nat).
  assert (HD : length D = n).
  { unfold D. now rewrite np_repeat_length, date_range_length. }
  assert (HP : length P = n) by apply tuple_mul_length.
  rewrite with_column_same_length by congruence. cbn [obind].
  assert (H2 : length (combine D P) = n).
  { rewrite combine_length_same; congruence. }
  rewrite H2.
  pose proof (tx_draws_length n) as HT. unfold tx_draws in HT.
  pose proof (factor_draws_length n) as HU. unfold factor_draws in HU.
  unfold amounts, tx_draws, factor_draws.
  destruct (integers 800 3000 n (default_rng 42)) as [tx rs] eqn:Etx.
  cbn [fst snd] in *.
  rewrite with_column_same_length by congruence. cbn [obind].
  assert (H3 : length (combine (combine D P) tx) = n).
  { rewrite combine_length_same; congruence. }
  rewrite H3.
  destruct (uniform (1 # 2) 2 n rs) as [u rs'] eqn:Eu. cbn [fst snd] in *.
  rewrite (map_snd_combine (combine D P) tx) by congruence.
  unfold series_mul. rewrite HT, HU, Nat.eqb_refl. cbn [obind].
  rewrite with_column_same_length; [reflexivity |].
  rewrite H3, !length_map, combine_length_same; congruence.
Qed.

Lemma frame_of_length now days projects :
  length (frame_of now days projects) = (days * length projects)%nat.
Proof.
  unfold frame_of. rewrite length_map.
  set (n := (days * length projects)%nat).
  set (D := np_repeat (date_range (utc_today now) days) (length projects)).
  set (P := tuple_mul projects days).
  assert (HD : length D = n).
  { unfold D. now rewrite np_repeat_length, date_range_length. }
  assert (HP : length P = n) by apply tuple_mul_length.
  assert (H2 : length (combine D P) = n).
  { rewrite combine_length_same; congruence. }
  assert (H3 : length (combine (combine D P) (tx_draws n)) = n).
  { rewrite combine_length_same; rewrite ?tx_draws_length; congruence. }
  rewrite combine_length_same; rewrite ?amounts_length; congruence.
Qed.

End LoaderFacts.

(** ** The key columns of the generated frame *)

Lemma combine_app_same {A B : Type} (a1 : list A) : forall (b1 : list B) a2 b2,
  length a1 = length b1 ->
  combine (a1 ++ a2) (b1 ++ b2) = combine a1 b1 ++ combine a2 b2.
Proof.
  induction a1 as [| x a1 IH]; intros [| y b1] a2 b2 H; simpl in *;
    try discriminate; [reflexivity |].
  f_equal. apply IH. now injection H.
Qed.

Lemma combine_repeat_l {A B : Type} (x : A) (b : list B) :
  combine (repeat x (length b)) b = map (pair x) b.
Proof. induction b as [| y b IH]; simpl; [reflexivity | now rewrite IH]. Qed.

(** Days outside, projects inside: the two key columns, zipped, are the
    product of the days with the projects. *)
Lemma combine_repeat_tile {A B : Type} (a : list A) (b : list B) :
  combine (np_repeat a (length b)) (tuple_mul b (length a)) = list_prod a b.
Proof.
  unfold np_repeat, tuple_mul.
  induction a as [| x a IH]; simpl; [reflexivity |].
  rewrite combine_app_same by apply repeat_length.
  now rewrite combine_repeat_l, IH.
Qed.

Lemma NoDup_list_prod_pairs {A B : Type} (a : list A) (b : list B) :
  NoDup a -> NoDup b -> NoDup (list_prod a b).
Proof.
  intros Ha Hb. induction Ha as [| x a Hx Ha IH]; simpl; [constructor |].
  apply NoDup_app. repeat split.
  - apply Injective_map_NoDup; [| exact Hb]. intros u v E. now injection E.
  - exact IH.
  - intros [u v] H1 H2. apply in_map_iff in H1. destruct H1 as [w [E _]].
    injection E as -> _. apply in_prod_iff in H2. now destruct H2.
Qed.

Lemma date_range_nth e n i : (i < n)%nat ->
  nth i (date_range e n) 0 = e - Z.of_nat (n - 1) + Z.of_nat i.
Proof.
  intros H. unfold date_range.
  set (f := fun j : nat => e - Z.of_nat (n - 1) + Z.of_nat j).
  rewrite (nth_indep _ 0 (f 0%nat)) by now rewrite length_map, length_seq.
  rewrite map_nth, seq_nth by exact H. reflexivity.
Qed.

Lemma date_range_In e n d :
  In d (date_range e n) <-> e - Z.of_nat n < d <= e.
Proof.
  unfold date_range. rewrite in_map_iff. split.
  - intros [i [<- Hi]]. apply in_seq in Hi. lia.
  - intros H. exists (Z.to_nat (d - (e - Z.of_nat (n - 1)))). split.
    + lia.
    + apply in_seq. lia.
Qed.

Lemma date_range_NoDup e n : NoDup (date_range e n).
Proof.
  unfold date_range. apply Injective_map_NoDup; [| apply seq_NoDup].
  intros i j H. lia.
Qed.

Section KeyFacts.

Context {G : Generator}.

Lemma frame_of_keys now days projects :
  map key (frame_of now days projects)
  = list_prod (date_range (utc_today now) days) projects.
Proof.
  unfold frame_of.
  set (n := (days * length projects)%nat).
  set (D := np_repeat (date_range (utc_today now) days) (length projects)).
  set (P := tuple_mul projects days).
  assert (HD : length D = n).
  { unfold D. now rewrite np_repeat_length, date_range_length. }
  assert (HP : length P = n) by apply tuple_mul_length.
  assert (H2 : length (combine D P) = n).
  { rewrite combine_length_same; congruence. }
  assert (H3 : length (combine (combine D P) (tx_draws n)) = n).
  { rewrite combine_length_same; rewrite ?tx_draws_length; congruence. }
  rewrite map_map.
  rewrite (map_ext _ (fun c => fst (fst c)))
    by (intros [[[d p] t] a]; reflexivity).
  rewrite <- (map_map fst fst).
  rewrite map_fst_combine by (rewrite amounts_length; congruence).
  rewrite map_fst_combine by (rewrite tx_draws_length; congruence).
  unfold D, P.
  rewrite <- (date_range_length (utc_today now) days) at 2.
  apply combine_repeat_tile.
Qed.

End KeyFacts.

(** ** The generated frame: size and keys *)

(** C1: for every day count of at least one and every non-empty tuple of
    projects, [load_mock] returns (it does not raise) a frame of exactly
    [days * len(projects)] rows. *)
Theorem load_mock_row_count (G : Generator) (now : Z) (days : nat)
  (projects : list string) :
  (1 <= days)%nat -> projects <> [] ->
  exists df, load_mock now days projects = Some df
             /\ length df = (days * length projects)%nat.
Proof.
  intros _ _. exists (frame_of now days projects). split.
  - apply load_mock_frame.
  - apply frame_of_length.
Qed.

Lemma load_mock_row_count_witness :
  exists df, @load_mock lcg 1700000000 7 ["uniswap"; "aave"]%string = Some df
             /\ length df = 14%nat.
Proof.
  apply (load_mock_row_count lcg 1700000000 7 ["uniswap"; "aave"]%string).
  - lia.
  - discriminate.
Defined.

(** The example of the specification, run with the stand-in generator:
    seven days ending on the day of the call, each with the two projects. *)
Example load_mock_seven_days :
  option_map (map key) (@load_mock lcg 1700000000 7 ["uniswap"; "aave"]%string)
  = Some [(19669, "uniswap"); (19669, "aave"); (19670, "uniswap");
          (19670, "aave"); (19671, "uniswap"); (19671, "aave");
          (19672, "uniswap"); (19672, "aave"); (19673, "uniswap");
          (19673, "aave"); (19674, "uniswap"); (19674, "aave");
          (19675, "uniswap"); (19675, "aave")]%string.
Proof. vm_compute. reflexivity. Qed.

(** C2: for every day count of at least one and every non-empty tuple of
    distinct projects, the keys of the frame are the product of the day
    range with the projects, days outside and projects inside; every
    (day, project) pair of that product is the key of exactly one row and
    no row has another key; the day range has [days] entries, ends at the
    UTC date of the call and steps by exactly one day. *)
Theorem load_mock_keys (G : Generator) (now : Z) (days : nat)
  (projects : list string) :
  (1 <= days)%nat -> projects <> [] -> NoDup projects ->
  exists df,
    load_mock now days projects = Some df
    /\ map key df = list_prod (date_range (utc_today now) days) projects
    /\ (forall d p, In d (date_range (utc_today now) days) -> In p projects ->
          count_occ pair_key_dec (map key df) (d, p) = 1%nat)
    /\ (forall r, In r df ->
          In (day r) (date_range (utc_today now) days)
          /\ In (project r) projects)
    /\ length (date_range (utc_today now) days) = days
    /\ nth (days - 1) (date_range (utc_today now) days) 0 = utc_today now
    /\ (forall i, (S i < days)%nat ->
          nth (S i) (date_range (utc_today now) days) 0
          = nth i (date_range (utc_today now) days) 0 + 1)
    /\ (forall d, In d (date_range (utc_today now) days) <->
          utc_today now - Z.of_nat days < d <= utc_today now).
Proof.
  intros Hdays _ Hnd. exists (frame_of now days projects).
  pose proof (frame_of_keys now days projects) as Hk.
  split; [apply load_mock_frame |].
  split; [exact Hk |].
  split; [| split; [| split; [| split; [| split]]]].
  - intros d p Hd Hp. rewrite Hk.
    apply NoDup_count_occ'.
    + apply NoDup_list_prod_pairs; [apply date_range_NoDup | exact Hnd].
    + apply in_prod_iff. now split.
  - intros r Hr. apply in_prod_iff. rewrite <- Hk.
    change (day r, project r) with (key r). now apply in_map.
  - apply date_range_length.
  - rewrite date_range_nth by lia. lia.
  - intros i Hi. rewrite !date_range_nth by lia. lia.
  - intros d. apply date_range_In.
Qed.

Lemma load_mock_keys_witness :
  exists df,
    @load_mock lcg 1700000000 7 ["uniswap"; "aave"]%string = Some df
    /\ map key df = list_prod (date_range 19675 7) ["uniswap"; "aave"]%string.
Proof.
  destruct (load_mock_keys lcg 1700000000 7 ["uniswap"; "aave"]%string)
    as [df [Hrun [Hkeys _]]].
  - lia.
  - discriminate.
  - repeat constructor; simpl; intuition discriminate.
  - exists df. split; [exact Hrun | exact Hkeys].
Defined.

(** ** The numeric columns *)

Lemma rint_floor q : Qfloor q <= rint q <= Qfloor q + 1.
Proof.
  unfold rint. destruct (Qcompare _ _); [destruct (Z.even _) | |]; lia.
Qed.

(** [rint] is a nearest integer. *)
Lemma rint_nearest q :
  (q - (1 # 2) <= inject_Z (rint q))%Q /\ (inject_Z (rint q) <= q + (1 # 2))%Q.
Proof.
  pose proof (Qfloor_le q) as Hlo. pose proof (Qlt_floor q) as Hhi.
  rewrite inject_Z_plus in Hhi. change (inject_Z 1) with 1%Q in Hhi.
  unfold rint. cbv zeta.
  destruct (Qcompare (q - inject_Z (Qfloor q)) (1 # 2)) eqn:E.
  - apply Qeq_alt in E.
    destruct (Z.even (Qfloor q)); rewrite ?inject_Z_plus;
      change (inject_Z 1) with 1%Q; split; lra.
  - apply Qlt_alt in E. split; lra.
  - apply Qgt_alt in E. rewrite inject_Z_plus.
    change (inject_Z 1) with 1%Q. split; lra.
Qed.

Lemma rint_nonneg q : (0 <= q)%Q -> 0 <= rint q.
Proof.
  intros H. pose proof (rint_floor q) as [Hf _].
  pose proof (Qfloor_resp_le 0 q H) as H0. change (Qfloor 0) with 0 in H0.
  lia.
Qed.

Lemma round2_nonneg q : (0 <= q)%Q -> (0 <= round2 q)%Q.
Proof.
  intros H. unfold round2. apply Qle_shift_div_l; [reflexivity |].
  rewrite Qmult_0_l. change 0%Q with (inject_Z 0). rewrite <- Zle_Qle.
  apply rint_nonneg. lra.
Qed.

(** Rounding to two decimals moves a value by at most half a cent. *)
Lemma round2_nearest q :
  (q - (1 # 200) <= round2 q)%Q /\ (round2 q <= q + (1 # 200))%Q.
Proof.
  destruct (rint_nearest (q * 100)) as [Hlo Hhi]. unfold round2. split.
  - apply Qle_shift_div_l; [reflexivity | lra].
  - apply Qle_shift_div_r; [reflexivity | lra].
Qed.

Lemma combine_map_self {A B C : Type} (g : A * B -> C) (a : list A) :
  forall b : list B,
  combine a (map g (combine a b)) = map (fun p => (fst p, g p)) (combine a b).
Proof.
  induction a as [| x a IH]; intros [| y b]; simpl; try reflexivity.
  now rewrite IH.
Qed.

Lemma combine_drop_first {A B C : Type} (a : list A) :
  forall (b : list B) (c : list C), length a = length b ->
  map (fun t => (snd (fst t), snd t)) (combine (combine a b) c) = combine b c.
Proof.
  induction a as [| x a IH]; intros [| y b] [| z c] H; simpl in *;
    try discriminate; try reflexivity.
  f_equal. apply IH. now injection H.
Qed.

Section NumericFacts.

Context {G : Generator}.

(** The two numeric entries of a generated row come from one draw of
    [integers] and one draw of [uniform]. *)
Lemma frame_of_numeric now days projects r :
  In r (frame_of now days projects) ->
  exists t u,
    In t (tx_draws (days * length projects))
    /\ In u (factor_draws (days * length projects))
    /\ tx_count r = t
    /\ amount_usd r = round2 (inject_Z t * u).
Proof.
  intros Hr.
  apply (in_map (fun r => (tx_count r, amount_usd r))) in Hr.
  unfold frame_of in Hr. cbv zeta in Hr.
  set (n := (days * length projects)%nat) in *.
  set (D := np_repeat (date_range (utc_today now) days) (length projects)) in *.
  set (P := tuple_mul projects days) in *.
  assert (HD : length D = n).
  { unfold D. now rewrite np_repeat_length, date_range_length. }
  assert (HP : length P = n) by apply tuple_mul_length.
  assert (H2 : length (combine D P) = n).
  { rewrite combine_length_same; congruence. }
  rewrite map_map in Hr.
  rewrite (map_ext _ (fun c => (snd (fst c), snd c))) in Hr
    by (intros [[[d p] t] a]; reflexivity).
  rewrite combine_drop_first in Hr by (rewrite tx_draws_length; congruence).
  unfold amounts in Hr. rewrite map_map, combine_map_self in Hr.
  apply in_map_iff in Hr. destruct Hr as [[t u] [E Hin]].
  cbn [fst snd] in E. injection E as Et Ea.
  exists t, u. repeat split.
  - eapply in_combine_l, Hin.
  - eapply in_combine_r, Hin.
  - now symmetry.
  - now symmetry.
Qed.

End NumericFacts.

(** C4: every row of the frame [load_mock] returns has an integer
    [tx_count] with [800 <= tx_count < 3000]. *)
Theorem load_mock_tx_count_range (G : Generator) (now : Z) (days : nat)
  (projects : list string) :
  exists df, load_mock now days projects = Some df
             /\ forall r, In r df -> 800 <= tx_count r < 3000.
Proof.
  exists (frame_of now days projects). split; [apply load_mock_frame |].
  intros r Hr.
  destruct (frame_of_numeric _ _ _ _ Hr) as [t [u [Ht [_ [-> _]]]]].
  unfold tx_draws in Ht.
  pose proof (integers_bounds 800 3000 (days * length projects)
                (default_rng 42)) as Hb.
  rewrite Forall_forall in Hb. apply Hb; [reflexivity | exact Ht].
Qed.

(** A value half-way between two integers goes to the even one. *)
Lemma rint_tie_even q :
  (inject_Z (rint q) - q == 1 # 2)%Q \/ (q - inject_Z (rint q) == 1 # 2)%Q ->
  Z.even (rint q) = true.
Proof.
  pose proof (Qfloor_le q) as Hlo. pose proof (Qlt_floor q) as Hhi.
  rewrite inject_Z_plus in Hhi. change (inject_Z 1) with 1%Q in Hhi.
  unfold rint. cbv zeta.
  destruct (Qcompare (q - inject_Z (Qfloor q)) (1 # 2)) eqn:E.
  - intros _. destruct (Z.even (Qfloor q)) eqn:Ev; [exact Ev |].
    now rewrite Z.add_1_r, Z.even_succ, <- Z.negb_even, Ev.
  - apply Qlt_alt in E. intros [H | H]; exfalso; lra.
  - apply Qgt_alt in E. rewrite inject_Z_plus.
    change (inject_Z 1) with 1%Q. intros [H | H]; exfalso; lra.
Qed.

(** A value rounded to two decimals is a whole number of hundredths, the
    nearest to the value, and the even one of the two nearest when the
    value lies half-way. *)
Lemma round2_hundredths q :
  exists cents : Z,
    (round2 q * 100 == inject_Z cents)%Q
    /\ (q - (1 # 200) <= round2 q)%Q /\ (round2 q <= q + (1 # 200))%Q
    /\ ((round2 q - q == 1 # 200)%Q \/ (q - round2 q == 1 # 200)%Q ->
        Z.even cents = true).
Proof.
  exists (rint (q * 100)).
  destruct (round2_nearest q) as [Hlo Hhi].
  assert (Hc : (round2 q * 100 == inject_Z (rint (q * 100)))%Q).
  { unfold round2. field. }
  split; [exact Hc |]. split; [exact Hlo |]. split; [exact Hhi |].
  intros H. apply rint_tie_even. rewrite <- Hc.
  destruct H as [H | H]; [left | right]; lra.
Qed.

(** C3: every row of the frame [load_mock] returns has a non-negative
    [amount_usd], equal to its own [tx_count] times some factor of
    [[0.5, 2.0)], rounded to two decimals: the amount is a whole number of
    cents, at most half a cent away from the product, and an even number
    of cents when the product lies half-way between two. *)
Theorem load_mock_amount_usd (G : Generator) (now : Z) (days : nat)
  (projects : list string) :
  exists df, load_mock now days projects = Some df
    /\ forall r, In r df ->
         (0 <= amount_usd r)%Q
         /\ exists factor : Q,
              (1 # 2 <= factor)%Q /\ (factor < 2)%Q
              /\ amount_usd r = round2 (inject_Z (tx_count r) * factor)
              /\ exists cents : Z,
                   (amount_usd r * 100 == inject_Z cents)%Q
                   /\ (inject_Z (tx_count r) * factor - (1 # 200)
                       <= amount_usd r)%Q
                   /\ (amount_usd r
                       <= inject_Z (tx_count r) * factor + (1 # 200))%Q
                   /\ ((amount_usd r - inject_Z (tx_count r) * factor
                        == 1 # 200)%Q
                       \/ (inject_Z (tx_count r) * factor - amount_usd r
                           == 1 # 200)%Q ->
                       Z.even cents = true).
Proof.
  exists (frame_of now days projects). split; [apply load_mock_frame |].
  intros r Hr.
  destruct (frame_of_numeric _ _ _ _ Hr) as [t [u [Ht [Hu [Et Ea]]]]].
  assert (Htb : 800 <= t < 3000).
  { pose proof (integers_bounds 800 3000 (days * length projects)
                  (default_rng 42)) as Hb.
    rewrite Forall_forall in Hb. apply Hb; [reflexivity | exact Ht]. }
  assert (Hub : (1 # 2 <= u)%Q /\ (u < 2)%Q).
  { pose proof (uniform_bounds (1 # 2) 2 (days * length projects)
                  (snd (integers 800 3000 (days * length projects)
                          (default_rng 42)))) as Hb.
    rewrite Forall_forall in Hb. apply Hb; [reflexivity | exact Hu]. }
  split.
  - rewrite Ea. apply round2_nonneg.
    assert (H800 : (inject_Z 800 <= inject_Z t)%Q) by (rewrite <- Zle_Qle; lia).
    change (inject_Z 800) with 800%Q in H800. nra.
  - exists u. rewrite Et.
    split; [tauto |]. split; [tauto |]. split; [exact Ea |].
    rewrite Ea. apply round2_hundredths.
Qed.

(** ** The date filter *)

Lemma filter_subsequence {A : Type} (f : A -> bool) (l : list A) :
  subsequence (filter f l) l.
Proof.
  induction l as [| x l IH]; simpl; [constructor |].
  destruct (f x); now constructor.
Qed.

Lemma filter_none {A : Type} (f : A -> bool) (l : list A) :
  (forall x, In x l -> f x = false) -> filter f l = [].
Proof.
  induction l as [| x l IH]; intros H; simpl; [reflexivity |].
  rewrite (H x (or_introl eq_refl)). apply IH. intros y Hy. apply H. now right.
Qed.

(** C5: on every frame and every range [(d1, d2)] the filter returns (it
    does not raise) the rows with [d1 <= day <= d2] and only those, in the
    order of the frame; the result is empty when [d1 > d2], and when every
    day of the frame is after [d2]. *)
Theorem date_filter_range (df : DataFrame) (d1 d2 : Z) :
  exists out,
    date_filter [d1; d2] df = Some out
    /\ out = filter (fun r => (d1 <=? day r) && (day r <=? d2)) df
    /\ subsequence out df
    /\ (forall r, In r out <-> In r df /\ d1 <= day r <= d2)
    /\ (d1 > d2 -> out = [])
    /\ ((forall r, In r df -> d2 < day r) -> out = []).
Proof.
  eexists. split; [reflexivity |]. split; [reflexivity |].
  split; [apply filter_subsequence |].
  split; [| split].
  - intros r. rewrite filter_In, andb_true_iff, !Z.leb_le. tauto.
  - intros H. apply filter_none. intros r _.
    apply andb_false_iff. rewrite !Z.leb_gt. lia.
  - intros H. apply filter_none. intros r Hr. specialize (H r Hr).
    apply andb_false_iff. rewrite !Z.leb_gt. lia.
Qed.

(** The example of the specification: a range that ends before the first
    generated day leaves no row, and nothing is raised. *)
Lemma date_filter_before_range (G : Generator) (now : Z) (days : nat)
  (projects : list string) (d1 d2 : Z) :
  d2 <= utc_today now - Z.of_nat days ->
  (df <- load_mock now days projects ;; date_filter [d1; d2] df) = Some [].
Proof.
  intros H. rewrite load_mock_frame. cbn [obind].
  destruct (date_filter_range (frame_of now days projects) d1 d2)
    as [out [Hrun [_ [_ [_ [_ Hempty]]]]]].
  rewrite Hrun. f_equal. apply Hempty. intros r Hr.
  apply (in_map key) in Hr. rewrite frame_of_keys in Hr.
  apply in_prod_iff in Hr. destruct Hr as [Hd _].
  apply date_range_In in Hd. lia.
Qed.

(** ** The script *)

Section ScriptFacts.

Context {G : Generator}.

(** The decorated loader never raises. *)
Lemma cached_load_mock_total c clock now days projects :
  exists df c', cached_load_mock c clock now days projects = Some (df, c').
Proof.
  unfold cached_load_mock. rewrite load_mock_frame. cbn [obind].
  destruct (lookup (days, projects) c) as [e |]; [destruct (live clock e) |];
    eauto.
Qed.

Lemma date_filter_total d1 df :
  d1 <> [] -> exists out, date_filter d1 df = Some out.
Proof.
  intros H. unfold date_filter, tuple_first, tuple_last.
  destruct d1 as [| a d1]; [contradiction |]. cbn [hd_error obind].
  destruct (rev (a :: d1)) as [| b l] eqn:E.
  - apply (f_equal (@length Z)) in E. rewrite length_rev in E. discriminate.
  - cbn [hd_error obind]. eauto.
Qed.

End ScriptFacts.

(** C7: with the tuple of the date input not empty, a rerun never raises.
    An empty selection stops it with the information message, whatever the
    filtered frame is; a non-empty selection whose filtered frame is empty
    stops it with the warning; the two messages differ; anything else is
    rendered from the non-empty filtered frame. *)
Theorem script_empty_states (G : Generator) (c : Cache) (i : Inputs) :
  in_d1 i <> [] ->
  exists df c' shown,
    cached_load_mock c (in_clock i) (in_now i) (in_days i)
      (load_projects (in_selected i)) = Some (df, c')
    /\ date_filter (in_d1 i) df = Some shown
    /\ snd (script c i) = c'
    /\ fst (script c i) <> Raised
    /\ (in_selected i = [] ->
        fst (script c i)
        = Stopped (Info "Select at least one project in the sidebar."))
    /\ (in_selected i <> [] -> shown = [] ->
        fst (script c i) = Stopped (Warning "No rows for this date range."))
    /\ (in_selected i <> [] -> shown <> [] -> fst (script c i) = Rendered shown)
    /\ Stopped (Info "Select at least one project in the sidebar.")
       <> Stopped (Warning "No rows for this date range.").
Proof.
  intros Hd1.
  destruct (cached_load_mock_total c (in_clock i) (in_now i) (in_days i)
              (load_projects (in_selected i))) as [df [c' Hload]].
  destruct (date_filter_total (in_d1 i) df Hd1) as [shown Hflt].
  exists df, c', shown.
  split; [exact Hload |]. split; [exact Hflt |].
  unfold script, load_call. cbn [fst snd]. rewrite Hload, Hflt.
  destruct (in_selected i) as [| p sel]; destruct shown as [| r shown];
    cbn [fst snd]; repeat split; intros; try congruence; discriminate.
Qed.

Lemma script_empty_states_witness :
  fst (@script lcg []
         (mkInputs 0 1700000000 60 [] [19616; 19675]))
  = Stopped (Info "Select at least one project in the sidebar.").
Proof.
  destruct (script_empty_states lcg []
              (mkInputs 0 1700000000 60 [] [19616; 19675]))
    as [df [c' [shown [_ [_ [_ [_ [Hinfo _]]]]]]]].
  - discriminate.
  - apply Hinfo. reflexivity.
Defined.

(** Without a date in the tuple of the date input the first guard is not
    reached: with no project selected the rerun raises at [d1[0]] and
    shows no message. *)
Lemma script_empty_states_counterexample :
  ~ (forall (c : Cache) (i : Inputs),
       in_selected i = [] ->
       fst (@script lcg c i)
       = Stopped (Info "Select at least one project in the sidebar.")).
Proof.
  intros H.
  specialize (H [] (mkInputs 0 1700000000 7 [] []) eq_refl).
  vm_compute in H. discriminate H.
Qed.

(** C8: the tuple of projects the script passes to [load_mock] is never
    empty: it is the selection when there is one, and the whole list of
    candidate projects otherwise. *)
Theorem load_call_projects_nonempty (i : Inputs) :
  snd (load_call i) <> []
  /\ (in_selected i <> [] -> snd (load_call i) = in_selected i)
  /\ (in_selected i = [] -> snd (load_call i) = all_projects).
Proof.
  unfold load_call, load_projects. cbn [snd].
  destruct (in_selected i) as [| p sel]; repeat split;
    intros; try congruence; discriminate.
Qed.

(** ** The break-down tab *)

Lemma StronglySorted_weaken {A : Type} (R R' : A -> A -> Prop) (l : list A) :
  (forall x y, R x y -> R' x y) -> StronglySorted R l -> StronglySorted R' l.
Proof.
  intros HR H. induction H as [| x l Hl IH Hx]; constructor; [exact IH |].
  eapply Forall_impl; [| exact Hx]. intros y. apply HR.
Qed.

Lemma StronglySorted_firstn {A : Type} (R : A -> A -> Prop) (n : nat) :
  forall l, StronglySorted R l -> StronglySorted R (firstn n l).
Proof.
  induction n as [| n IH]; intros l H; [constructor |].
  destruct H as [| x l Hl Hx]; simpl; constructor.
  - now apply IH.
  - rewrite Forall_forall in *. intros y Hy. apply Hx.
    rewrite <- (firstn_skipn n l). apply in_or_app. now left.
Qed.

Lemma StronglySorted_app_order {A : Type} (R : A -> A -> Prop)
  (l1 l2 : list A) :
  StronglySorted R (l1 ++ l2) ->
  forall x y, In x l1 -> In y l2 -> R x y.
Proof.
  induction l1 as [| a l1 IH]; simpl; intros H x y Hx Hy; [contradiction |].
  apply StronglySorted_inv in H. destruct H as [Hs Ha].
  destruct Hx as [-> | Hx].
  - rewrite Forall_forall in Ha. apply Ha, in_or_app. now right.
  - now apply IH.
Qed.

Lemma insert_desc_perm x l : Permutation (x :: l) (insert_desc x l).
Proof.
  induction l as [| y l IH]; cbn [insert_desc]; [reflexivity |].
  destruct (desc_leb x y); [reflexivity |].
  rewrite perm_swap. now constructor.
Qed.

Lemma insert_desc_sorted x l :
  StronglySorted desc_le l -> StronglySorted desc_le (insert_desc x l).
Proof.
  induction 1 as [| y l Hs IH Hy]; cbn [insert_desc].
  - repeat constructor.
  - destruct (desc_leb x y) eqn:E; unfold desc_leb in E.
    + apply Qle_bool_iff in E. constructor; [now constructor |].
      constructor; [exact E |].
      eapply Forall_impl; [| exact Hy]. intros z Hz. unfold desc_le in *.
      now apply Qle_trans with (snd y).
    + constructor; [exact IH |].
      eapply Permutation_Forall; [apply insert_desc_perm |].
      constructor; [| exact Hy]. unfold desc_le.
      destruct (Qlt_le_dec (snd x) (snd y)) as [Hlt | Hle].
      * now apply Qlt_le_weak.
      * apply Qle_bool_iff in Hle. congruence.
Qed.

Lemma sort_values_desc_sorted g : StronglySorted desc_le (sort_values_desc g).
Proof.
  unfold sort_values_desc. induction g as [| x g IH]; cbn [fold_right].
  - constructor.
  - now apply insert_desc_sorted.
Qed.

Lemma sort_values_desc_perm g : Permutation g (sort_values_desc g).
Proof.
  unfold sort_values_desc. induction g as [| x g IH]; cbn [fold_right].
  - constructor.
  - rewrite <- insert_desc_perm. now constructor.
Qed.

(** Groups with equal sums stay in the order of their keys. *)
Example sort_values_desc_ties :
  sort_values_desc
    [("a"%string, 3%Q); ("b"%string, 5%Q); ("c"%string, 3%Q);
     ("d"%string, 5%Q)]
  = [("b"%string, 5%Q); ("d"%string, 5%Q); ("a"%string, 3%Q);
     ("c"%string, 3%Q)].
Proof. reflexivity. Qed.

Lemma group_keys_perm df :
  Permutation (nodup string_dec (map project df)) (group_keys df).
Proof. apply StringSort.Permuted_sort. Qed.

Lemma group_keys_In df p : In p (group_keys df) <-> In p (map project df).
Proof.
  split; intros H.
  - apply (nodup_In string_dec).
    eapply Permutation_in; [symmetry; apply group_keys_perm | exact H].
  - eapply Permutation_in; [apply group_keys_perm |]. now apply nodup_In.
Qed.

Lemma group_keys_NoDup df : NoDup (group_keys df).
Proof.
  eapply Permutation_NoDup; [apply group_keys_perm | apply NoDup_nodup].
Qed.

Lemma groupby_sum_keys m df : map fst (groupby_sum m df) = group_keys df.
Proof.
  unfold groupby_sum. rewrite map_map. cbn [fst]. apply map_id.
Qed.

Lemma groupby_sum_In m df p s :
  In (p, s) (groupby_sum m df)
  <-> In p (map project df) /\ s = group_sum m p df.
Proof.
  unfold groupby_sum. rewrite in_map_iff, <- group_keys_In. split.
  - intros [k [E Hk]]. injection E as -> <-. now split.
  - intros [Hp ->]. now exists p.
Qed.

Lemma breakdown_split m topn df :
  sort_values_desc (groupby_sum m df)
  = breakdown m topn df ++ skipn topn (sort_values_desc (groupby_sum m df)).
Proof. unfold breakdown, head. now rewrite firstn_skipn. Qed.

Lemma breakdown_In_groups m topn df x :
  In x (breakdown m topn df) -> In x (groupby_sum m df).
Proof.
  intros H. eapply Permutation_in.
  - symmetry. apply sort_values_desc_perm.
  - rewrite (breakdown_split m topn). apply in_or_app. now left.
Qed.

Lemma breakdown_keys_NoDup m topn df : NoDup (map fst (breakdown m topn df)).
Proof.
  pose proof (group_keys_NoDup df) as H.
  rewrite <- (groupby_sum_keys m) in H.
  eapply Permutation_NoDup in H;
    [| apply Permutation_map, sort_values_desc_perm].
  rewrite (breakdown_split m topn), map_app in H.
  eapply NoDup_app_remove_r, H.
Qed.

Lemma breakdown_length m topn df :
  length (breakdown m topn df)
  = Nat.min topn (length (nodup string_dec (map project df))).
Proof.
  unfold breakdown, head. rewrite length_firstn. f_equal.
  rewrite <- (Permutation_length (sort_values_desc_perm _)).
  rewrite <- (length_map fst), groupby_sum_keys.
  symmetry. apply Permutation_length, group_keys_perm.
Qed.

(** A group that is cut off sums to no more than any group that is kept. *)
Lemma breakdown_cut_off m topn df p q s :
  In p (map project df) -> ~ In p (map fst (breakdown m topn df)) ->
  In (q, s) (breakdown m topn df) -> (group_sum m p df <= s)%Q.
Proof.
  intros Hp Hout Hq.
  assert (Hin : In (p, group_sum m p df) (sort_values_desc (groupby_sum m df))).
  { eapply Permutation_in; [apply sort_values_desc_perm |].
    now apply groupby_sum_In. }
  pose proof (sort_values_desc_sorted (groupby_sum m df)) as Hs.
  rewrite (breakdown_split m topn) in Hin, Hs.
  apply in_app_or in Hin. destruct Hin as [Hin | Hin].
  - exfalso. apply Hout. now apply (in_map fst) in Hin.
  - apply (StronglySorted_app_order _ _ _ Hs (q, s) _ Hq Hin).
Qed.

(** The example of the specification, run with the stand-in generator (the
    sums are those of its draws, not of NumPy's). *)
Example breakdown_two_projects :
  option_map
    (fun df => map (fun x => (fst x, Qred (snd x)))
                 (breakdown metric_amount_usd 1 df))
    (@load_mock lcg 1700000000 7 ["uniswap"; "aave"]%string)
  = Some [("aave"%string, 36097 # 2)].
Proof. vm_compute. reflexivity. Qed.

(** ** Determinism of the numeric columns *)

Lemma np_repeat_map {A B : Type} (f : A -> B) (a : list A) (k : nat) :
  np_repeat (map f a) k = map f (np_repeat a k).
Proof.
  unfold np_repeat. induction a as [| x a IH]; simpl; [reflexivity |].
  now rewrite map_app, IH, map_repeat.
Qed.

Lemma date_range_shift e e' n :
  date_range e' n = map (Z.add (e' - e)) (date_range e n).
Proof.
  unfold date_range. rewrite map_map. apply map_ext. intros i. lia.
Qed.

Section ColumnFacts.

Context {G : Generator}.

(** The four columns of the generated frame. *)
Lemma frame_of_columns now days projects :
  map day (frame_of now days projects)
  = np_repeat (date_range (utc_today now) days) (length projects)
  /\ map project (frame_of now days projects) = tuple_mul projects days
  /\ map tx_count (frame_of now days projects)
     = tx_draws (days * length projects)
  /\ map amount_usd (frame_of now days projects)
     = amounts (days * length projects).
Proof.
  unfold frame_of.
  set (n := (days * length projects)%nat).
  set (D := np_repeat (date_range (utc_today now) days) (length projects)).
  set (P := tuple_mul projects days).
  assert (HD : length D = n).
  { unfold D. now rewrite np_repeat_length, date_range_length. }
  assert (HP : length P = n) by apply tuple_mul_length.
  assert (H2 : length (combine D P) = n).
  { rewrite combine_length_same; congruence. }
  assert (H3 : length (combine (combine D P) (tx_draws n)) = n).
  { rewrite combine_length_same; rewrite ?tx_draws_length; congruence. }
  assert (HT : length (tx_draws n) = n) by apply tx_draws_length.
  assert (HA : length (amounts n) = n) by apply amounts_length.
  rewrite !map_map. repeat split.
  - rewrite (map_ext _ (fun c => fst (fst (fst c))))
      by (intros [[[d p] t] a]; reflexivity).
    rewrite <- (map_map fst (fun c => fst (fst c))).
    rewrite <- (map_map fst fst).
    rewrite !map_fst_combine; congruence.
  - rewrite (map_ext _ (fun c => snd (fst (fst c))))
      by (intros [[[d p] t] a]; reflexivity).
    rewrite <- (map_map fst (fun c => snd (fst c))).
    rewrite <- (map_map fst snd).
    rewrite !map_fst_combine, map_snd_combine; congruence.
  - rewrite (map_ext _ (fun c => snd (fst c)))
      by (intros [[[d p] t] a]; reflexivity).
    rewrite <- (map_map fst snd).
    rewrite map_fst_combine, map_snd_combine; congruence.
  - rewrite (map_ext _ snd) by (intros [[[d p] t] a]; reflexivity).
    rewrite map_snd_combine; congruence.
Qed.

(** Two frames with the same four columns are the same frame. *)
Lemma frame_of_same_day now now' days projects :
  utc_today now = utc_today now' ->
  frame_of now days projects = frame_of now' days projects.
Proof. intros H. unfold frame_of. now rewrite H. Qed.

Lemma frame_of_day_shift now now' days projects :
  map day (frame_of now' days projects)
  = map (Z.add (utc_today now' - utc_today now))
      (map day (frame_of now days projects)).
Proof.
  destruct (frame_of_columns now days projects) as [-> _].
  destruct (frame_of_columns now' days projects) as [-> _].
  rewrite <- np_repeat_map. f_equal. apply date_range_shift.
Qed.

End ColumnFacts.

(** C10: the generator is created from the seed 42 inside every call, so
    two runs with the same day count and the same number of projects have
    the same [tx_count] column and the same [amount_usd] column, whenever
    they run and whatever the projects are called. With the same projects
    the [project] column is the same too, and the [day] column differs by
    the number of days between the two UTC dates: runs on one UTC date
    return one frame. *)
Theorem load_mock_numeric_deterministic (G : Generator) (now1 now2 : Z)
  (days : nat) (projects1 projects2 : list string) :
  length projects1 = length projects2 ->
  exists df1 df2,
    load_mock now1 days projects1 = Some df1
    /\ load_mock now2 days projects2 = Some df2
    /\ map tx_count df1 = map tx_count df2
    /\ map amount_usd df1 = map amount_usd df2
    /\ (projects1 = projects2 ->
        map project df1 = map project df2
        /\ map day df2
           = map (Z.add (utc_today now2 - utc_today now1)) (map day df1)
        /\ (utc_today now1 = utc_today now2 -> df1 = df2)).
Proof.
  intros Hlen.
  exists (frame_of now1 days projects1), (frame_of now2 days projects2).
  split; [apply load_mock_frame |]. split; [apply load_mock_frame |].
  destruct (frame_of_columns now1 days projects1) as [_ [Hp1 [Ht1 Ha1]]].
  destruct (frame_of_columns now2 days projects2) as [_ [Hp2 [Ht2 Ha2]]].
  rewrite Ht1, Ht2, Ha1, Ha2, Hlen. repeat split.
  - subst projects2. congruence.
  - subst projects2. apply frame_of_day_shift.
  - subst projects2. now apply frame_of_same_day.
Qed.

Lemma load_mock_numeric_deterministic_witness :
  exists df1 df2,
    @load_mock lcg 1700000000 7 ["uniswap"; "aave"]%string = Some df1
    /\ @load_mock lcg 1800000000 7 ["curve"; "balancer"]%string = Some df2
    /\ map tx_count df1 = map tx_count df2
    /\ map amount_usd df1 = map amount_usd df2.
Proof.
  destruct (load_mock_numeric_deterministic lcg 1700000000 1800000000 7
              ["uniswap"; "aave"]%string ["curve"; "balancer"]%string)
    as [df1 [df2 [H1 [H2 [H3 [H4 _]]]]]].
  - reflexivity.
  - exists df1, df2. repeat split; assumption.
Defined.

(** ** The time-to-live cache *)

Lemma lookup_key k c e : lookup k c = Some e -> e_key e = k.
Proof.
  induction c as [| x c IH]; simpl; [discriminate |].
  destruct (key_eq_dec (e_key x) k) as [E | _]; [| exact IH].
  intros H. injection H as <-. exact E.
Qed.

Lemma lookup_In k c e : lookup k c = Some e -> In e c.
Proof.
  induction c as [| x c IH]; simpl; [discriminate |].
  destruct (key_eq_dec (e_key x) k) as [_ | _].
  - intros H. injection H as <-. now left.
  - intros H. right. now apply IH.
Qed.


Section CacheFacts.

Context {G : Generator}.

Lemma generated_nil : generated [].
Proof. intros e []. Qed.

Lemma generated_store c now clock days projects df :
  generated c -> load_mock now days projects = Some df ->
  generated (store (days, projects) df clock c).
Proof.
  intros Hc Hrun e [<- | He].
  - now exists now.
  - apply Hc. unfold evict in He. apply filter_In in He. tauto.
Qed.

Lemma cached_load_mock_hit c clock now days projects e :
  lookup (days, projects) c = Some e -> live clock e = true ->
  cached_load_mock c clock now days projects = Some (e_value e, c).
Proof. intros Hl Hlive. unfold cached_load_mock. now rewrite Hl, Hlive. Qed.

Lemma cached_load_mock_miss c clock now days projects :
  served c clock (days, projects) = false ->
  cached_load_mock c clock now days projects
  = Some (frame_of now days projects,
          store (days, projects) (frame_of now days projects) clock c).
Proof.
  unfold served, cached_load_mock. rewrite load_mock_frame. cbn [obind].
  destruct (lookup (days, projects) c) as [e |]; [| reflexivity].
  now intros ->.
Qed.


End CacheFacts.



(** * Further properties of the script *)

(** ** Bounds on the amounts *)

Lemma round2_between (lo hi : Z) (q : Q) :
  (inject_Z lo <= q * 100)%Q -> (q * 100 < inject_Z hi)%Q ->
  (inject_Z lo / 100 <= round2 q)%Q /\ (round2 q <= inject_Z hi / 100)%Q.
Proof.
  intros Hlo Hhi. unfold round2.
  pose proof (rint_floor (q * 100)) as [Hf1 Hf2].
  assert (H1 : lo <= Qfloor (q * 100)).
  { rewrite <- (Qfloor_Z lo). now apply Qfloor_resp_le. }
  assert (H2 : Qfloor (q * 100) < hi).
  { rewrite Zlt_Qlt. eapply Qle_lt_trans; [apply Qfloor_le | exact Hhi]. }
  split; apply Qmult_le_compat_r; try discriminate;
    rewrite <- Zle_Qle; lia.
Qed.

Lemma frame_of_row_bounds (G : Generator) (now : Z) (days : nat)
  (projects : list string) (r : Row) :
  In r (frame_of now days projects) ->
  800 <= tx_count r < 3000
  /\ (inject_Z (tx_count r) / 2 <= amount_usd r)%Q
  /\ (amount_usd r <= 2 * inject_Z (tx_count r))%Q
  /\ (400 <= amount_usd r)%Q /\ (amount_usd r <= 5998)%Q.
Proof.
  intros Hr.
  destruct (frame_of_numeric _ _ _ _ Hr) as [t [u [Ht [Hu [Et Ea]]]]].
  assert (Htb : 800 <= t < 3000).
  { pose proof (integers_bounds 800 3000 (days * length projects)
                  (default_rng 42)) as Hb.
    rewrite Forall_forall in Hb. apply Hb; [reflexivity | exact Ht]. }
  assert (Hub : (1 # 2 <= u)%Q /\ (u < 2)%Q).
  { pose proof (uniform_bounds (1 # 2) 2 (days * length projects)
                  (snd (integers 800 3000 (days * length projects)
                          (default_rng 42)))) as Hb.
    rewrite Forall_forall in Hb. apply Hb; [reflexivity | exact Hu]. }
  assert (H800 : (800 <= inject_Z t)%Q).
  { change 800%Q with (inject_Z 800). rewrite <- Zle_Qle. lia. }
  assert (H2999 : (inject_Z t <= 2999)%Q).
  { change 2999%Q with (inject_Z 2999). rewrite <- Zle_Qle. lia. }
  destruct (round2_between (50 * t) (200 * t) (inject_Z t * u)) as [Hlo Hhi].
  { rewrite inject_Z_mult. change (inject_Z 50) with 50%Q. nra. }
  { rewrite inject_Z_mult. change (inject_Z 200) with 200%Q. nra. }
  rewrite <- Ea in Hlo, Hhi. rewrite Et.
  rewrite inject_Z_mult in Hlo, Hhi.
  change (inject_Z 50) with 50%Q in Hlo.
  change (inject_Z 200) with 200%Q in Hhi.
  set (a := amount_usd r) in *. set (x := inject_Z t) in *.
  unfold Qdiv in *.
  change (/ 100)%Q with (1 # 100)%Q in *. change (/ 2)%Q with (1 # 2)%Q.
  repeat split; try lra; lia.
Qed.

(** X1: an amount lies between half and twice the count of its row,
    hence between 400 and 5998. *)
Theorem load_mock_amount_bounds (G : Generator) (now : Z) (days : nat)
  (projects : list string) :
  exists df, load_mock now days projects = Some df
    /\ forall r, In r df ->
         (inject_Z (tx_count r) / 2 <= amount_usd r)%Q
         /\ (amount_usd r <= 2 * inject_Z (tx_count r))%Q
         /\ (400 <= amount_usd r)%Q /\ (amount_usd r <= 5998)%Q.
Proof.
  exists (frame_of now days projects). split; [apply load_mock_frame |].
  intros r Hr. now apply (frame_of_row_bounds G now days projects r).
Qed.

(** ** The date filter on a generated frame *)

Lemma filter_all {A : Type} (f : A -> bool) (l : list A) :
  (forall x, In x l -> f x = true) -> filter f l = l.
Proof.
  intros H. apply forallb_filter_id, forallb_forall, H.
Qed.

Lemma map_filter_key {A B : Type} (f : A -> B) (g : B -> bool) (l : list A) :
  map f (filter (fun x => g (f x)) l) = filter g (map f l).
Proof.
  induction l as [| x l IH]; simpl; [reflexivity |].
  destruct (g (f x)); simpl; now rewrite IH.
Qed.

Lemma filter_list_prod {A B : Type} (P : A -> bool) (a : list A) (b : list B) :
  filter (fun k => P (fst k)) (list_prod a b) = list_prod (filter P a) b.
Proof.
  induction a as [| x a IH]; simpl; [reflexivity |].
  rewrite filter_app, IH. destruct (P x) eqn:E; simpl.
  - f_equal. apply filter_all. intros k Hk. apply in_map_iff in Hk.
    destruct Hk as [y [<- _]]. exact E.
  - rewrite filter_none; [reflexivity |]. intros k Hk. apply in_map_iff in Hk.
    destruct Hk as [y [<- _]]. exact E.
Qed.

Lemma date_range_S e n :
  date_range e (S n) = (e - Z.of_nat n) :: date_range e n.
Proof.
  unfold date_range. cbn [seq map]. f_equal; [lia |].
  rewrite <- seq_shift, map_map. apply map_ext_in.
  intros i Hi. apply in_seq in Hi. lia.
Qed.

(** The days of a range kept by an interval are the range of the overlap. *)
Lemma date_range_filter e n lo hi :
  filter (fun d => (lo <=? d) && (d <=? hi)) (date_range e n)
  = date_range (Z.min hi e)
      (Z.to_nat (Z.min hi e - Z.max lo (e - Z.of_nat n + 1) + 1)).
Proof.
  induction n as [| n IH].
  - replace (Z.to_nat _) with 0%nat by lia. reflexivity.
  - rewrite date_range_S. cbn [filter]. rewrite IH.
    destruct ((lo <=? e - Z.of_nat n) && (e - Z.of_nat n <=? hi)) eqn:E.
    + apply andb_true_iff in E. rewrite !Z.leb_le in E.
      replace (Z.to_nat (Z.min hi e - Z.max lo (e - Z.of_nat (S n) + 1) + 1))
        with (S (Z.to_nat (Z.min hi e - Z.max lo (e - Z.of_nat n + 1) + 1)))
        by lia.
      rewrite date_range_S. f_equal. lia.
    + apply andb_false_iff in E. rewrite !Z.leb_gt in E.
      f_equal. lia.
Qed.

Section FilterFacts.

Context {G : Generator}.

Lemma frame_of_filter_keys now days projects lo hi :
  map key (filter (fun r => (lo <=? day r) && (day r <=? hi))
             (frame_of now days projects))
  = list_prod
      (date_range (Z.min hi (utc_today now))
         (overlap (utc_today now) days lo hi))
      projects.
Proof.
  rewrite (map_filter_key key (fun k => (lo <=? fst k) && (fst k <=? hi))).
  rewrite frame_of_keys.
  rewrite (filter_list_prod (fun d => (lo <=? d) && (d <=? hi))).
  now rewrite date_range_filter.
Qed.

Lemma frame_of_filter_length now days projects lo hi :
  length (filter (fun r => (lo <=? day r) && (day r <=? hi))
            (frame_of now days projects))
  = (overlap (utc_today now) days lo hi * length projects)%nat.
Proof.
  pose proof (frame_of_filter_keys now days projects lo hi) as Hk.
  apply (f_equal (@length _)) in Hk.
  now rewrite length_map, length_prod, date_range_length in Hk.
Qed.

End FilterFacts.

(** X2: filtering a generated frame by the dates [(lo, hi)] leaves the days of
    the overlap of [[lo, hi]] with the generated days, each with every
    project: as many rows as days in the overlap times projects. *)
Theorem date_filter_generated (G : Generator) (now : Z) (days : nat)
  (projects : list string) (lo hi : Z) :
  exists df out,
    load_mock now days projects = Some df
    /\ date_filter [lo; hi] df = Some out
    /\ map key out
       = list_prod
           (date_range (Z.min hi (utc_today now))
              (overlap (utc_today now) days lo hi))
           projects
    /\ length out
       = (overlap (utc_today now) days lo hi * length projects)%nat.
Proof.
  exists (frame_of now days projects). eexists.
  split; [apply load_mock_frame |]. split; [reflexivity |].
  split; [apply frame_of_filter_keys | apply frame_of_filter_length].
Qed.

(** X3: with the default value of the date input, taken on the UTC date of
    the run, the filter keeps the whole frame. *)
Theorem date_filter_default_range (G : Generator) (now : Z) (days : nat)
  (projects : list string) :
  (df <- load_mock now days projects ;;
   date_filter (default_date_range (utc_today now) days) df)
  = load_mock now days projects.
Proof.
  rewrite load_mock_frame. cbn [obind].
  unfold date_filter, default_date_range, tuple_first, tuple_last.
  cbn [rev app hd_error obind]. apply f_equal.
  apply filter_all. intros r Hr.
  apply (in_map key) in Hr. rewrite frame_of_keys in Hr.
  apply in_prod_iff in Hr. destruct Hr as [Hd _].
  apply date_range_In in Hd. cbn [key fst] in Hd.
  apply andb_true_iff. rewrite !Z.leb_le. lia.
Qed.

(** X4: when the local date [d2] of the date input differs from the UTC date
    of the loader, its default range loses one day of rows for every day
    of difference. *)
Theorem date_filter_default_range_skew (G : Generator) (now : Z) (days : nat)
  (projects : list string) (d2 : Z) :
  exists df out,
    load_mock now days projects = Some df
    /\ date_filter (default_date_range d2 days) df = Some out
    /\ length out
       = (Z.to_nat (Z.of_nat days - Z.abs (d2 - utc_today now))
          * length projects)%nat.
Proof.
  exists (frame_of now days projects). eexists.
  split; [apply load_mock_frame |]. split; [reflexivity |].
  rewrite frame_of_filter_length. f_equal. unfold overlap. lia.
Qed.

(** ** The tuple of the date input *)

Lemma date_filter_bounds d1 lo hi df :
  tuple_first d1 = Some lo -> tuple_last d1 = Some hi ->
  date_filter d1 df
  = Some (filter (fun r => (lo <=? day r) && (day r <=? hi)) df).
Proof. intros H1 H2. unfold date_filter. now rewrite H1, H2. Qed.

(** X5: while a range is being picked the tuple holds one date: the filter
    then keeps the rows of that day alone, one per project when the day
    was generated and none otherwise. *)
Theorem date_filter_single_date (G : Generator) (now : Z) (days : nat)
  (projects : list string) (d : Z) :
  exists df out,
    load_mock now days projects = Some df
    /\ date_filter [d] df = Some out
    /\ (forall r, In r out <-> In r df /\ day r = d)
    /\ (utc_today now - Z.of_nat days < d <= utc_today now ->
        map key out = map (pair d) projects)
    /\ (~ utc_today now - Z.of_nat days < d <= utc_today now -> out = []).
Proof.
  exists (frame_of now days projects). eexists.
  split; [apply load_mock_frame |].
  split; [now apply (date_filter_bounds [d] d d) |].
  pose proof (frame_of_filter_keys now days projects d d) as Hk.
  split; [| split].
  - intros r. rewrite filter_In, andb_true_iff, !Z.leb_le.
    intuition lia.
  - intros Hd. rewrite Hk.
    replace (Z.min d (utc_today now)) with d by lia.
    replace (overlap (utc_today now) days d d) with 1%nat
      by (unfold overlap; lia).
    cbn. rewrite app_nil_r. apply map_ext. intros p. f_equal. lia.
  - intros Hd.
    replace (overlap (utc_today now) days d d) with 0%nat in Hk
      by (unfold overlap; lia).
    cbn in Hk. now apply map_eq_nil in Hk.
Qed.

Section RerunFacts.

Context {G : Generator}.

(** The frame a call of the cached loader returns was generated at some
    instant, the instant of the call when the cache did not answer. *)
Lemma cached_load_mock_frame c clock now days projects :
  generated c ->
  exists now0 c',
    cached_load_mock c clock now days projects
    = Some (frame_of now0 days projects, c')
    /\ generated c'
    /\ (served c clock (days, projects) = false -> now0 = now).
Proof.
  intros Hc. destruct (served c clock (days, projects)) eqn:Es.
  - unfold served in Es.
    destruct (lookup (days, projects) c) as [e |] eqn:El; [| discriminate].
    destruct (Hc e (lookup_In _ _ _ El)) as [now0 Hgen].
    rewrite (lookup_key _ _ _ El) in Hgen. cbn [fst snd] in Hgen.
    rewrite load_mock_frame in Hgen. injection Hgen as Hgen.
    exists now0, c. rewrite Hgen.
    split; [now apply cached_load_mock_hit |]. split; [exact Hc |].
    discriminate.
  - exists now, (store (days, projects) (frame_of now days projects) clock c).
    split; [now apply cached_load_mock_miss |].
    split; [| reflexivity].
    eapply generated_store; [exact Hc | apply load_mock_frame].
Qed.

(** One rerun, with the loaded frame made explicit. *)
Lemma script_frame c i :
  generated c ->
  exists now0 c',
    (served c (in_clock i) (load_call i) = false -> now0 = in_now i)
    /\ generated c'
    /\ script c i
       = (match date_filter (in_d1 i)
                  (frame_of now0 (in_days i) (load_projects (in_selected i)))
          with
          | None => Raised
          | Some df =>
            match in_selected i with
            | [] => Stopped (Info "Select at least one project in the sidebar.")
            | _ :: _ =>
              match df with
              | [] => Stopped (Warning "No rows for this date range.")
              | _ :: _ => Rendered df
              end
            end
          end, c').
Proof.
  intros Hc.
  destruct (cached_load_mock_frame c (in_clock i) (in_now i) (in_days i)
              (load_projects (in_selected i)) Hc)
    as [now0 [c' [Hrun [Hc' Hm]]]].
  exists now0, c'. split; [exact Hm |]. split; [exact Hc' |].
  unfold script, load_call. cbn [fst snd]. rewrite Hrun.
  destruct (date_filter (in_d1 i) _) as [df |]; [| reflexivity].
  destruct (in_selected i); [reflexivity |]. now destruct df.
Qed.

End RerunFacts.

(** X6: an empty tuple from the date input makes the rerun raise, after the
    loader has run and before either guard is reached: also when no
    project is selected. *)
Theorem script_empty_tuple_raises (G : Generator) (c : Cache) (i : Inputs) :
  in_d1 i = [] ->
  fst (script c i) = Raised
  /\ exists df,
       cached_load_mock c (in_clock i) (in_now i) (in_days i)
         (load_projects (in_selected i)) = Some (df, snd (script c i)).
Proof.
  intros Hd.
  destruct (cached_load_mock_total c (in_clock i) (in_now i) (in_days i)
              (load_projects (in_selected i))) as [df [c' Hload]].
  unfold script, load_call. cbn [fst snd]. rewrite Hload, Hd. cbn.
  split; [reflexivity | now exists df].
Qed.

Lemma script_empty_tuple_raises_witness :
  fst (@script lcg [] (mkInputs 0 1700000000 7 [] [])) = Raised.
Proof.
  apply (script_empty_tuple_raises lcg [] (mkInputs 0 1700000000 7 [] [])).
  reflexivity.
Defined.

(** X7: with projects selected, what a rerun shows is decided by the overlap
    of the chosen dates with the days of the loaded frame: no overlap, as
    for a range whose start is after its end, gives the warning; any
    overlap renders the days of the overlap, each with every selected
    project. The days are those of the instant the frame was generated
    at, the instant of the rerun unless the cache answered. *)
Theorem script_outcome_by_overlap (G : Generator) (c : Cache) (i : Inputs)
  (lo hi : Z) :
  generated c -> in_selected i <> [] ->
  tuple_first (in_d1 i) = Some lo -> tuple_last (in_d1 i) = Some hi ->
  exists now0,
    (served c (in_clock i) (load_call i) = false -> now0 = in_now i)
    /\ (overlap (utc_today now0) (in_days i) lo hi = 0%nat ->
        fst (script c i) = Stopped (Warning "No rows for this date range."))
    /\ (overlap (utc_today now0) (in_days i) lo hi <> 0%nat ->
        exists df,
          fst (script c i) = Rendered df
          /\ map key df
             = list_prod
                 (date_range (Z.min hi (utc_today now0))
                    (overlap (utc_today now0) (in_days i) lo hi))
                 (in_selected i))
    /\ (hi < lo ->
        fst (script c i) = Stopped (Warning "No rows for this date range.")).
Proof.
  intros Hc Hsel Hlo Hhi.
  destruct (script_frame c i Hc) as [now0 [c' [Hm [_ Hs]]]].
  exists now0. split; [exact Hm |].
  rewrite Hs. cbn [fst]. rewrite (date_filter_bounds _ lo hi _ Hlo Hhi).
  destruct (in_selected i) as [| p sel] eqn:Esel; [contradiction |].
  cbn [load_projects].
  pose proof (frame_of_filter_keys now0 (in_days i) (p :: sel) lo hi) as Hk.
  set (out := filter _ _) in *.
  assert (Hzero : overlap (utc_today now0) (in_days i) lo hi = 0%nat ->
                  out = []).
  { intros E. rewrite E in Hk. cbn in Hk. now apply map_eq_nil in Hk. }
  split; [| split].
  - intros E. now rewrite (Hzero E).
  - intros E. destruct out as [| r out'] eqn:Eout.
    + exfalso. destruct (overlap _ _ _ _) as [| m]; [contradiction |].
      rewrite date_range_S in Hk. discriminate Hk.
    + exists (r :: out'). split; [reflexivity | exact Hk].
  - intros Hrev. rewrite Hzero; [reflexivity |]. unfold overlap. lia.
Qed.

Lemma script_outcome_by_overlap_witness :
  fst (@script lcg []
         (mkInputs 0 1700000000 7 ["uniswap"; "aave"]%string [19675; 19670]))
  = Stopped (Warning "No rows for this date range.").
Proof.
  destruct (script_outcome_by_overlap lcg []
              (mkInputs 0 1700000000 7 ["uniswap"; "aave"]%string
                 [19675; 19670]) 19675 19670)
    as [now0 [_ [_ [_ Hrev]]]].
  - apply generated_nil.
  - discriminate.
  - reflexivity.
  - reflexivity.
  - apply Hrev. reflexivity.
Defined.

(** ** What is rendered *)

Lemma fold_left_min_spec (l : list Z) : forall a,
  (fold_left Z.min l a = a \/ In (fold_left Z.min l a) l)
  /\ fold_left Z.min l a <= a
  /\ forall y, In y l -> fold_left Z.min l a <= y.
Proof.
  induction l as [| x l IH]; intros a; cbn [fold_left].
  - split; [now left |]. split; [lia | intros y []].
  - destruct (IH (Z.min a x)) as [H1 [H2 H3]]. split; [| split].
    + destruct H1 as [H1 | H1]; [| right; now right].
      destruct (Z.min_spec a x) as [[_ E] | [_ E]]; rewrite E in *.
      * now left.
      * right. left. now symmetry.
    + lia.
    + intros y [<- | Hy]; [lia | now apply H3].
Qed.

Lemma fold_left_max_spec (l : list Z) : forall a,
  (fold_left Z.max l a = a \/ In (fold_left Z.max l a) l)
  /\ a <= fold_left Z.max l a
  /\ forall y, In y l -> y <= fold_left Z.max l a.
Proof.
  induction l as [| x l IH]; intros a; cbn [fold_left].
  - split; [now left |]. split; [lia | intros y []].
  - destruct (IH (Z.max a x)) as [H1 [H2 H3]]. split; [| split].
    + destruct H1 as [H1 | H1]; [| right; now right].
      destruct (Z.max_spec a x) as [[_ E] | [_ E]]; rewrite E in *.
      * right. left. now symmetry.
      * now left.
    + lia.
    + intros y [<- | Hy]; [lia | now apply H3].
Qed.

(** On a series that is not empty, [min] returns the entry below all. *)
Lemma series_min_least (l : list Z) (x : Z) :
  In x l -> (forall y, In y l -> x <= y) -> series_min l = Some x.
Proof.
  destruct l as [| a l]; [intros [] |]. intros Hx Hle. cbn [series_min].
  f_equal. destruct (fold_left_min_spec l a) as [H1 [H2 H3]].
  assert (Hin : In (fold_left Z.min l a) (a :: l)).
  { destruct H1 as [-> | H1]; [now left | now right]. }
  assert (Hlow : fold_left Z.min l a <= x).
  { destruct Hx as [<- | Hx]; [exact H2 | now apply H3]. }
  specialize (Hle _ Hin). lia.
Qed.

Lemma series_max_greatest (l : list Z) (x : Z) :
  In x l -> (forall y, In y l -> y <= x) -> series_max l = Some x.
Proof.
  destruct l as [| a l]; [intros [] |]. intros Hx Hle. cbn [series_max].
  f_equal. destruct (fold_left_max_spec l a) as [H1 [H2 H3]].
  assert (Hin : In (fold_left Z.max l a) (a :: l)).
  { destruct H1 as [-> | H1]; [now left | now right]. }
  assert (Hup : x <= fold_left Z.max l a).
  { destruct Hx as [<- | Hx]; [exact H2 | now apply H3]. }
  specialize (Hle _ Hin). lia.
Qed.

Lemma Qsum_between (lo hi : Q) (l : list Q) :
  (forall x, In x l -> (lo <= x)%Q /\ (x <= hi)%Q) ->
  (lo * inject_Z (Z.of_nat (length l)) <= Qsum l)%Q
  /\ (Qsum l <= hi * inject_Z (Z.of_nat (length l)))%Q.
Proof.
  induction l as [| x l IH]; intros H.
  - cbn [length Qsum fold_right]. change (inject_Z (Z.of_nat 0)) with 0%Q.
    split; lra.
  - destruct IH as [IH1 IH2]; [intros y Hy; apply H; now right |].
    destruct (H x (or_introl eq_refl)) as [H1 H2].
    cbn [length Qsum fold_right]. fold (Qsum l).
    rewrite Nat2Z.inj_succ, <- Z.add_1_r, inject_Z_plus.
    change (inject_Z 1) with 1%Q. split; lra.
Qed.

Lemma map_fst_key (df : DataFrame) : map fst (map key df) = map day df.
Proof. rewrite map_map. reflexivity. Qed.

Lemma map_snd_key (df : DataFrame) : map snd (map key df) = map project df.
Proof. rewrite map_map. reflexivity. Qed.

Section RenderedFacts.

Context {G : Generator}.

(** A rendered frame is the filtered frame of a run of the loader on the
    selection, and neither is empty. *)
Lemma script_rendered_inv c i lo hi df :
  generated c ->
  tuple_first (in_d1 i) = Some lo -> tuple_last (in_d1 i) = Some hi ->
  fst (script c i) = Rendered df ->
  exists now0,
    (served c (in_clock i) (load_call i) = false -> now0 = in_now i)
    /\ in_selected i <> [] /\ df <> []
    /\ df = filter (fun r => (lo <=? day r) && (day r <=? hi))
              (frame_of now0 (in_days i) (in_selected i)).
Proof.
  intros Hc Hlo Hhi Hr.
  destruct (script_frame c i Hc) as [now0 [c' [Hm [_ Hs]]]].
  exists now0. split; [exact Hm |].
  rewrite Hs in Hr. cbn [fst] in Hr.
  rewrite (date_filter_bounds _ lo hi _ Hlo Hhi) in Hr.
  destruct (in_selected i) as [| p sel]; [discriminate |].
  cbn [load_projects] in Hr.
  destruct (filter _ _) as [| r out] eqn:E; [discriminate |].
  injection Hr as <-. repeat split; discriminate.
Qed.

End RenderedFacts.

(** X8: every row a rerun renders is of a selected project, lies between the
    chosen dates, and keeps the bounds of the loader on its count and its
    amount. *)
Theorem script_rendered_rows (G : Generator) (c : Cache) (i : Inputs)
  (lo hi : Z) (df : DataFrame) :
  generated c ->
  tuple_first (in_d1 i) = Some lo -> tuple_last (in_d1 i) = Some hi ->
  fst (script c i) = Rendered df ->
  df <> [] /\ in_selected i <> []
  /\ forall r, In r df ->
       In (project r) (in_selected i)
       /\ lo <= day r <= hi
       /\ 800 <= tx_count r < 3000
       /\ (400 <= amount_usd r)%Q /\ (amount_usd r <= 5998)%Q.
Proof.
  intros Hc Hlo Hhi Hr.
  destruct (script_rendered_inv c i lo hi df Hc Hlo Hhi Hr)
    as [now0 [_ [Hsel [Hne ->]]]].
  split; [exact Hne |]. split; [exact Hsel |].
  intros r Hin. apply filter_In in Hin. destruct Hin as [Hin Hrange].
  apply andb_true_iff in Hrange. rewrite !Z.leb_le in Hrange.
  destruct (frame_of_row_bounds G _ _ _ _ Hin) as [Ht [_ [_ [Ha1 Ha2]]]].
  apply (in_map key) in Hin. rewrite frame_of_keys in Hin.
  apply in_prod_iff in Hin. destruct Hin as [_ Hp].
  repeat split; try assumption; lia.
Qed.

Lemma script_rendered_rows_witness :
  exists df,
    fst (@script lcg []
           (mkInputs 0 1700000000 7 ["uniswap"; "aave"]%string [19675]))
    = Rendered df
    /\ forall r, In r df -> 800 <= tx_count r < 3000.
Proof.
  eexists. split; [vm_compute; reflexivity |].
  intros r Hin.
  eapply (script_rendered_rows lcg []
            (mkInputs 0 1700000000 7 ["uniswap"; "aave"]%string [19675])
            19675 19675).
  - apply generated_nil.
  - reflexivity.
  - reflexivity.
  - vm_compute. reflexivity.
  - exact Hin.
Defined.

Lemma in_map_fst_prod {A B : Type} (a : list A) (b : list B) (x : A) :
  b <> [] -> (In x (map fst (list_prod a b)) <-> In x a).
Proof.
  intros Hb. rewrite in_map_iff. split.
  - intros [[u v] [<- H]]. apply in_prod_iff in H. tauto.
  - intros Hx. destruct b as [| y b]; [contradiction |].
    exists (x, y). split; [reflexivity |]. apply in_prod_iff.
    split; [exact Hx | now left].
Qed.

Lemma in_map_snd_prod {A B : Type} (a : list A) (b : list B) (y : B) :
  a <> [] -> (In y (map snd (list_prod a b)) <-> In y b).
Proof.
  intros Ha. rewrite in_map_iff. split.
  - intros [[u v] [<- H]]. apply in_prod_iff in H. tauto.
  - intros Hy. destruct a as [| x a]; [contradiction |].
    exists (x, y). split; [reflexivity |]. apply in_prod_iff.
    split; [now left | exact Hy].
Qed.

(** X9: the four key metrics of a rendered frame, for a selection without
    repetition: the rows are the days of the overlap times the selected
    projects, the projects are all the selected ones, the coverage runs
    from the later of the two starts to the earlier of the two ends, and
    the volume is between 400 and 5998 a row. *)
Theorem script_key_metrics (G : Generator) (c : Cache) (i : Inputs)
  (lo hi : Z) (df : DataFrame) :
  generated c -> NoDup (in_selected i) ->
  tuple_first (in_d1 i) = Some lo -> tuple_last (in_d1 i) = Some hi ->
  fst (script c i) = Rendered df ->
  exists now0,
    (served c (in_clock i) (load_call i) = false -> now0 = in_now i)
    /\ kpi_rows df
       = (overlap (utc_today now0) (in_days i) lo hi
          * length (in_selected i))%nat
    /\ kpi_projects df = length (in_selected i)
    /\ kpi_coverage df
       = (Some (Z.max lo (utc_today now0 - Z.of_nat (in_days i) + 1)),
          Some (Z.min hi (utc_today now0)))
    /\ (400 * inject_Z (Z.of_nat (kpi_rows df)) <= kpi_volume df)%Q
    /\ (kpi_volume df <= 5998 * inject_Z (Z.of_nat (kpi_rows df)))%Q.
Proof.
  intros Hc Hnd Hlo Hhi Hr.
  destruct (script_rendered_inv c i lo hi df Hc Hlo Hhi Hr)
    as [now0 [Hm [Hsel [Hne Hdf]]]].
  exists now0. split; [exact Hm |].
  pose proof (frame_of_filter_keys now0 (in_days i) (in_selected i) lo hi)
    as Hk.
  pose proof (frame_of_filter_length now0 (in_days i) (in_selected i) lo hi)
    as Hlen.
  rewrite <- Hdf in Hk, Hlen.
  set (e := utc_today now0) in *. set (n := in_days i) in *.
  assert (Hov : overlap e n lo hi <> 0%nat).
  { intros E. rewrite E in Hk. cbn in Hk. apply map_eq_nil in Hk.
    contradiction. }
  set (D := date_range (Z.min hi e) (overlap e n lo hi)) in *.
  assert (HD : D <> []).
  { intros E. apply (f_equal (@length Z)) in E. unfold D in E.
    rewrite date_range_length in E. contradiction. }
  split; [exact Hlen |]. split; [| split].
  - unfold kpi_projects. rewrite <- map_snd_key, Hk.
    apply Permutation_length, NoDup_Permutation;
      [apply NoDup_nodup | exact Hnd |].
    intros p. rewrite nodup_In. now apply in_map_snd_prod.
  - unfold kpi_coverage. rewrite <- map_fst_key, Hk. f_equal.
    + apply series_min_least.
      * apply in_map_fst_prod; [exact Hsel |]. apply date_range_In.
        unfold overlap in *. lia.
      * intros y Hy. apply in_map_fst_prod in Hy; [| exact Hsel].
        apply date_range_In in Hy. unfold overlap in *. lia.
    + apply series_max_greatest.
      * apply in_map_fst_prod; [exact Hsel |]. apply date_range_In.
        unfold overlap in *. lia.
      * intros y Hy. apply in_map_fst_prod in Hy; [| exact Hsel].
        apply date_range_In in Hy. lia.
  - unfold kpi_volume, kpi_rows. rewrite <- (length_map amount_usd).
    apply Qsum_between. intros x Hx. apply in_map_iff in Hx.
    destruct Hx as [r [<- Hin]]. rewrite Hdf in Hin.
    apply filter_In in Hin. destruct Hin as [Hin _].
    destruct (frame_of_row_bounds G _ _ _ _ Hin) as [_ [_ [_ Ha]]].
    exact Ha.
Qed.

Lemma script_key_metrics_witness :
  exists df,
    fst (@script lcg []
           (mkInputs 0 1700000000 7 ["uniswap"; "aave"]%string
              [19674; 19680]))
    = Rendered df
    /\ kpi_rows df = 4%nat /\ kpi_projects df = 2%nat
    /\ kpi_coverage df = (Some 19674, Some 19675).
Proof.
  destruct (fst (@script lcg []
                   (mkInputs 0 1700000000 7 ["uniswap"; "aave"]%string
                      [19674; 19680]))) as [| m | df] eqn:E;
    [vm_compute in E; discriminate E | vm_compute in E; discriminate E |].
  exists df. split; [reflexivity |].
  destruct (script_key_metrics lcg []
              (mkInputs 0 1700000000 7 ["uniswap"; "aave"]%string
                 [19674; 19680])
              19674 19680 df generated_nil)
    as [now0 [Hm [H1 [H2 [H3 _]]]]].
  - repeat constructor; simpl; intuition discriminate.
  - reflexivity.
  - reflexivity.
  - exact E.
  - rewrite (Hm eq_refl) in H1, H3. split; [exact H1 |].
    split; [exact H2 | exact H3].
Defined.

(** ** Sums under grouping *)

Lemma Qsum_cons (x : Q) (l : list Q) : Qsum (x :: l) = (x + Qsum l)%Q.
Proof. reflexivity. Qed.

Lemma Qsum_map_ext {K : Type} (g h : K -> Q) (l : list K) :
  (forall k, (g k == h k)%Q) -> (Qsum (map g l) == Qsum (map h l))%Q.
Proof.
  intros E. induction l as [| k l IH]; cbn [map]; [reflexivity |].
  now rewrite !Qsum_cons, E, IH.
Qed.

Lemma Qsum_map_add {K : Type} (g h : K -> Q) (ks : list K) :
  (Qsum (map (fun k => g k + h k) ks) == Qsum (map g ks) + Qsum (map h ks))%Q.
Proof.
  induction ks as [| k ks IH]; cbn [map]; [reflexivity |].
  rewrite !Qsum_cons, IH. ring.
Qed.

Lemma Qsum_map_zero {K : Type} (g : K -> Q) (ks : list K) :
  (forall k, In k ks -> (g k == 0)%Q) -> (Qsum (map g ks) == 0)%Q.
Proof.
  induction ks as [| k ks IH]; intros H; cbn [map]; [reflexivity |].
  rewrite Qsum_cons, (H k (or_introl eq_refl)), IH; [ring |].
  intros k' Hk'. apply H. now right.
Qed.

(** A value counted at one key of a list without repetition. *)
Lemma Qsum_map_pick {K : Type} (same : K -> K -> bool) (k0 : K) (v : Q)
  (ks : list K) :
  (forall a b, same a b = true <-> a = b) ->
  NoDup ks -> In k0 ks ->
  (Qsum (map (fun k => if same k0 k then v else 0) ks) == v)%Q.
Proof.
  intros Hsame Hnd. induction Hnd as [| k ks Hk Hnd IH]; intros Hin;
    [destruct Hin |].
  cbn [map]. rewrite Qsum_cons.
  destruct Hin as [-> | Hin].
  - rewrite (proj2 (Hsame k0 k0) eq_refl).
    rewrite Qsum_map_zero; [ring |].
    intros k' Hk'. destruct (same k0 k') eqn:E; [| reflexivity].
    apply Hsame in E. subst k'. contradiction.
  - destruct (same k0 k) eqn:E.
    + apply Hsame in E. subst k. contradiction.
    + rewrite IH by exact Hin. ring.
Qed.

(** Summing group by group is summing the whole frame, when every row
    falls in the group of one of the keys. *)
Lemma group_sums_total {K : Type} (same : K -> K -> bool) (kf : Row -> K)
  (f : Row -> Q) (ks : list K) (df : DataFrame) :
  (forall a b, same a b = true <-> a = b) ->
  NoDup ks -> (forall r, In r df -> In (kf r) ks) ->
  (Qsum (map (fun k => Qsum (map f (filter (fun r => same (kf r) k) df))) ks)
   == Qsum (map f df))%Q.
Proof.
  intros Hsame Hnd. induction df as [| r df IH]; intros Hin.
  - cbn [filter map]. apply Qsum_map_zero. reflexivity.
  - cbn [map]. rewrite Qsum_cons.
    rewrite <- IH by (intros r' Hr'; apply Hin; now right).
    rewrite <- (Qsum_map_pick same (kf r) (f r) ks Hsame Hnd)
      by (apply Hin; now left).
    rewrite <- Qsum_map_add.
    apply Qsum_map_ext. intros k. cbn [filter].
    destruct (same (kf r) k); cbn [map]; rewrite ?Qsum_cons; ring.
Qed.

Lemma Qsum_Permutation (l l' : list Q) :
  Permutation l l' -> (Qsum l == Qsum l')%Q.
Proof.
  induction 1 as [| x l l' _ IH | x y l | l l' l'' _ IH1 _ IH2];
    rewrite ?Qsum_cons.
  - reflexivity.
  - now rewrite IH.
  - ring.
  - now rewrite IH1.
Qed.

Lemma StronglySorted_strict (l : list Z) :
  StronglySorted Z.le l -> NoDup l -> StronglySorted Z.lt l.
Proof.
  induction 1 as [| x l Hs IH Hx]; intros Hnd; constructor.
  - apply IH. now inversion Hnd.
  - inversion Hnd as [| ? ? Hnot _]; subst.
    rewrite Forall_forall in *. intros y Hy.
    specialize (Hx y Hy). assert (x <> y) by (intros ->; contradiction).
    lia.
Qed.

Lemma daily_keys_perm (df : DataFrame) :
  Permutation (nodup Z.eq_dec (map day df)) (map fst (daily df)).
Proof.
  unfold daily. rewrite map_map. cbn [fst]. rewrite map_id.
  apply DaySort.Permuted_sort.
Qed.

(** X10: the chart has one point per day of the frame, days going up, and its
    points add up to the volume of the frame. *)
Theorem daily_chart (df : DataFrame) :
  StronglySorted Z.lt (map fst (daily df))
  /\ (forall d, In d (map fst (daily df)) <-> In d (map day df))
  /\ (forall d s, In (d, s) (daily df) ->
        s = Qsum (map amount_usd (on_day d df)))
  /\ (Qsum (map snd (daily df)) == kpi_volume df)%Q.
Proof.
  pose proof (daily_keys_perm df) as Hperm.
  assert (Hnd : NoDup (map fst (daily df))).
  { eapply Permutation_NoDup; [exact Hperm | apply NoDup_nodup]. }
  assert (Hin : forall d, In d (map fst (daily df)) <-> In d (map day df)).
  { intros d. split; intros H.
    - apply (nodup_In Z.eq_dec).
      eapply Permutation_in; [symmetry; exact Hperm | exact H].
    - eapply Permutation_in; [exact Hperm |]. now apply nodup_In. }
  split; [| split; [exact Hin | split]].
  - apply StronglySorted_strict; [| exact Hnd].
    unfold daily. rewrite map_map. cbn [fst]. rewrite map_id.
    apply StronglySorted_weaken with (R := fun x y => is_true (x <=? y)).
    + intros x y H. now apply Z.leb_le.
    + apply DaySort.StronglySorted_sort.
      intros x y z Hxy Hyz. unfold DayOrder.leb, is_true in *.
      rewrite Z.leb_le in *. lia.
  - intros d s H. unfold daily in H. apply in_map_iff in H.
    destruct H as [d' [E _]]. now injection E as <- <-.
  - unfold kpi_volume.
    rewrite <- (group_sums_total Z.eqb day amount_usd (map fst (daily df)) df).
    + unfold daily, on_day. rewrite !map_map. cbn [fst snd]. reflexivity.
    + intros a b. apply Z.eqb_eq.
    + exact Hnd.
    + intros r Hr. apply Hin. now apply in_map.
Qed.

(** ** The break-down of the page *)

Lemma groupby_sum_total (m : Metric) (df : DataFrame) :
  (Qsum (map snd (groupby_sum m df)) == Qsum (map (measure m) df))%Q.
Proof.
  rewrite <- (group_sums_total String.eqb project (measure m)
                (group_keys df) df).
  - unfold groupby_sum, group. rewrite map_map. cbn [snd]. reflexivity.
  - intros a b. apply String.eqb_eq.
  - apply group_keys_NoDup.
  - intros r Hr. apply group_keys_In. now apply in_map.
Qed.

Lemma group_sum_total_of (m : Metric) (p : string) (df : DataFrame) :
  group_sum m p df
  = match m with
    | metric_amount_usd => total_of amount_usd p df
    | metric_tx_count => total_of (fun r => inject_Z (tx_count r)) p df
    end.
Proof.
  unfold group_sum, group.
  induction df as [| r df IH]; [now destruct m |].
  cbn [filter total_of].
  destruct (string_dec (project r) p) as [E | N].
  - rewrite (proj2 (String.eqb_eq _ _) E). cbn [map]. rewrite Qsum_cons, IH.
    now destruct m.
  - rewrite (proj2 (String.eqb_neq _ _) N). rewrite IH. now destruct m.
Qed.

(** C9: the break-down groups the frame by project, sums the chosen
    measure in each group, sorts the groups by that sum, greatest first,
    and keeps the first [topn]: every row shown is a project of the frame
    with the sum of its group, no project is shown twice, the sums go
    down the rows, [min topn (number of projects)] rows are shown, and a
    group that is cut off sums to no more than any group shown. On a frame
    of exactly two projects, the top one is a single row: a project whose
    sum is at least the sum of each of the two. The sum of a group is the
    sum, row by row, of the [amount_usd] or of the [tx_count] of the rows
    of its project, and when no group is cut off the sums shown add up to
    the sum of that column over the whole frame. *)
Theorem breakdown_top_n (m : Metric) (topn : nat) (df : DataFrame) :
  (forall p s, In (p, s) (breakdown m topn df) ->
     In p (map project df) /\ s = group_sum m p df)
  /\ NoDup (map fst (breakdown m topn df))
  /\ StronglySorted desc_le (breakdown m topn df)
  /\ length (breakdown m topn df)
     = Nat.min topn (length (nodup string_dec (map project df)))
  /\ (forall p q s,
        In p (map project df) -> ~ In p (map fst (breakdown m topn df)) ->
        In (q, s) (breakdown m topn df) -> (group_sum m p df <= s)%Q)
  /\ (forall p q, p <> q ->
        (forall x, In x (map project df) <-> x = p \/ x = q) ->
        exists w,
          breakdown m 1 df = [(w, group_sum m w df)]
          /\ (w = p \/ w = q)
          /\ (group_sum m p df <= group_sum m w df)%Q
          /\ (group_sum m q df <= group_sum m w df)%Q)
  /\ (forall p,
        group_sum m p df
        = match m with
          | metric_amount_usd => total_of amount_usd p df
          | metric_tx_count => total_of (fun r => inject_Z (tx_count r)) p df
          end)
  /\ (forall p s, In (p, s) (breakdown m topn df) ->
        s = match m with
            | metric_amount_usd => total_of amount_usd p df
            | metric_tx_count =>
              total_of (fun r => inject_Z (tx_count r)) p df
            end)
  /\ ((length (nodup string_dec (map project df)) <= topn)%nat ->
      (fold_right Qplus 0 (map snd (breakdown m topn df))
       == fold_right Qplus 0
            (map (fun r => match m with
                           | metric_amount_usd => amount_usd r
                           | metric_tx_count => inject_Z (tx_count r)
                           end) df))%Q).
Proof.
  split; [| split; [| split; [| split; [| split; [| split;
    [| split; [| split]]]]]]].
  - intros p s H. apply groupby_sum_In. eapply breakdown_In_groups, H.
  - apply breakdown_keys_NoDup.
  - apply StronglySorted_firstn, sort_values_desc_sorted.
  - apply breakdown_length.
  - apply breakdown_cut_off.
  - intros p q Hpq Hpr.
    assert (Hlen : length (nodup string_dec (map project df)) = 2%nat).
    { change 2%nat with (length [p; q]). apply Permutation_length.
      apply NoDup_Permutation.
      - apply NoDup_nodup.
      - repeat constructor; simpl; intuition congruence.
      - intros x. rewrite nodup_In, Hpr. simpl. intuition congruence. }
    pose proof (breakdown_length m 1 df) as Hone. rewrite Hlen in Hone.
    destruct (breakdown m 1 df) as [| [w s] [| y l]] eqn:E; try discriminate.
    assert (Hw : In (w, s) (breakdown m 1 df)) by (rewrite E; now left).
    pose proof Hw as Hg. apply breakdown_In_groups, groupby_sum_In in Hg.
    destruct Hg as [Hwp ->]. exists w. split; [reflexivity |].
    split; [now apply Hpr |].
    assert (Hmax : forall x, In x (map project df) ->
                     (group_sum m x df <= group_sum m w df)%Q).
    { intros x Hx. destruct (string_dec x w) as [-> | Hne].
      - apply Qle_refl.
      - apply (breakdown_cut_off m 1 df x w); [exact Hx | | exact Hw].
        rewrite E. simpl. intuition congruence. }
    split; apply Hmax, Hpr; [now left | now right].
  - intros p. apply group_sum_total_of.
  - intros p s H. rewrite <- group_sum_total_of.
    apply breakdown_In_groups, groupby_sum_In in H. tauto.
  - intros Hall. fold (Qsum (map snd (breakdown m topn df))).
    assert (Hfull : breakdown m topn df
                    = sort_values_desc (groupby_sum m df)).
    { unfold breakdown, head. apply firstn_all2.
      rewrite <- (Permutation_length (sort_values_desc_perm _)).
      rewrite <- (length_map fst), groupby_sum_keys.
      now rewrite <- (Permutation_length (group_keys_perm df)). }
    rewrite Hfull.
    rewrite <- (Qsum_Permutation _ _
                  (Permutation_map snd (sort_values_desc_perm _))).
    rewrite groupby_sum_total. unfold Qsum, measure.
    destruct m; reflexivity.
Qed.

(** X11: the slider of the tab starts at five and there are five candidate
    projects, so nothing is ever cut off: every project of the frame has
    its row, and the rows add up to the total of the measure. *)
Theorem breakdown_shows_all (m : Metric) (topn : nat) (df : DataFrame) :
  (5 <= topn)%nat ->
  (forall r, In r df -> In (project r) all_projects) ->
  breakdown m topn df = sort_values_desc (groupby_sum m df)
  /\ (forall p, In p (map fst (breakdown m topn df)) <-> In p (map project df))
  /\ (Qsum (map snd (breakdown m topn df)) == Qsum (map (measure m) df))%Q.
Proof.
  intros Htop Hall.
  assert (Hfull : breakdown m topn df = sort_values_desc (groupby_sum m df)).
  { unfold breakdown, head. apply firstn_all2.
    rewrite <- (Permutation_length (sort_values_desc_perm _)).
    rewrite <- (length_map fst), groupby_sum_keys.
    rewrite <- (Permutation_length (group_keys_perm df)).
    apply Nat.le_trans with (length all_projects); [| exact Htop].
    apply NoDup_incl_length; [apply NoDup_nodup |].
    intros p Hp. apply nodup_In in Hp. apply in_map_iff in Hp.
    destruct Hp as [r [<- Hr]]. now apply Hall. }
  split; [exact Hfull |]. rewrite Hfull. split.
  - intros p. rewrite <- group_keys_In, <- (groupby_sum_keys m). split;
      apply Permutation_in, Permutation_map;
      [symmetry |]; apply sort_values_desc_perm.
  - rewrite <- groupby_sum_total.
    apply Qsum_Permutation, Permutation_map. symmetry.
    apply sort_values_desc_perm.
Qed.

Lemma breakdown_shows_all_witness :
  breakdown metric_tx_count 5
    [mkRow 19675 "curve" 900 (450 # 1); mkRow 19675 "aave" 1200 (700 # 1)]
  = sort_values_desc
      (groupby_sum metric_tx_count
         [mkRow 19675 "curve" 900 (450 # 1);
          mkRow 19675 "aave" 1200 (700 # 1)]).
Proof.
  apply (breakdown_shows_all metric_tx_count 5
           [mkRow 19675 "curve" 900 (450 # 1);
            mkRow 19675 "aave" 1200 (700 # 1)]).
  - lia.
  - intros r [<- | [<- | []]]; simpl; tauto.
Defined.

(** ** The walk-through flag over a session *)

(** X12: over the reruns of a session the flag, once set, stays set; it is set
    by the first click of the button; the toast is shown in that rerun and
    in no other; and once the flag is set the button is gone. *)
Theorem session_walkthrough (s : SessionState) (clicks : list bool) :
  length (snd (session s clicks)) = length clicks
  /\ acknowledged (fst (session s clicks))
     = acknowledged s || existsb (fun b => b) clicks
  /\ (clicks <> [] -> fst (session s clicks) <> None)
  /\ count_occ widget_eq_dec (concat (snd (session s clicks))) Toast
     = (if acknowledged s then 0
        else if existsb (fun b => b) clicks then 1 else 0)%nat
  /\ (acknowledged s = true -> concat (snd (session s clicks)) = []).
Proof.
  revert s. induction clicks as [| b clicks IH]; intros s.
  - cbn. rewrite orb_false_r. repeat split; try congruence.
    + now destruct (acknowledged s).
  - cbn [session].
    destruct (walkthrough s b) as [s1 shown] eqn:Ew.
    specialize (IH s1).
    destruct (session s1 clicks) as [s2 rest] eqn:Es.
    cbn [fst snd length concat existsb] in *.
    destruct IH as [IH1 [IH2 [IH3 [IH4 IH5]]]].
    rewrite count_occ_app, IH4, IH2.
    assert (Hs2 : s2 <> None).
    { destruct clicks as [| b' clicks'].
      - cbn in Es. injection Es as <- _. unfold walkthrough in Ew.
        destruct s as [[|] |]; destruct b; cbn in Ew; injection Ew as <- _;
          discriminate.
      - apply IH3. discriminate. }
    unfold walkthrough in Ew.
    destruct s as [[|] |]; destruct b; cbn in Ew; injection Ew as <- <-;
      cbn [acknowledged orb count_occ app] in *;
      repeat split; try congruence; try (intros _; exact Hs2);
      try (now rewrite ?IH5 by reflexivity);
      try (destruct (widget_eq_dec GotItButton Toast) as [E | _];
           [discriminate E |];
           destruct (widget_eq_dec Toast Toast) as [_ | N];
           [| contradiction];
           cbn; now destruct (existsb (fun b => b) clicks)).
Qed.

(** ** Reruns and the cache *)



(** X14: the slider gives 7 to 180 days and the selection is drawn, without
    repetition, from the five candidates: the frame a rerun loads has
    between 7 and 900 rows. *)
Theorem script_load_size (G : Generator) (c : Cache) (i : Inputs) :
  generated c ->
  (7 <= in_days i <= 180)%nat ->
  NoDup (in_selected i) -> incl (in_selected i) all_projects ->
  exists df c',
    cached_load_mock c (in_clock i) (in_now i) (fst (load_call i))
      (snd (load_call i)) = Some (df, c')
    /\ length df
       = (in_days i * length (load_projects (in_selected i)))%nat
    /\ (7 <= length df <= 900)%nat.
Proof.
  intros Hc Hdays Hnd Hincl.
  destruct (cached_load_mock_frame c (in_clock i) (in_now i) (in_days i)
              (load_projects (in_selected i)) Hc) as [now0 [c' [Hrun _]]].
  exists (frame_of now0 (in_days i) (load_projects (in_selected i))), c'.
  split; [exact Hrun |]. rewrite frame_of_length. split; [reflexivity |].
  assert (Hk : (1 <= length (load_projects (in_selected i)) <= 5)%nat).
  { destruct (in_selected i) as [| p sel] eqn:E; cbn [load_projects].
    - cbn. lia.
    - split; [cbn; lia |].
      change 5%nat with (length all_projects).
      now apply NoDup_incl_length. }
  nia.
Qed.

Lemma script_load_size_witness :
  exists df c',
    @cached_load_mock lcg [] 0 1700000000 7 ["aave"; "curve"]%string
    = Some (df, c')
    /\ (7 <= length df <= 900)%nat.
Proof.
  destruct (script_load_size lcg []
              (mkInputs 0 1700000000 7 ["aave"; "curve"]%string
                 [19670; 19675]))
    as [df [c' [Hrun [_ Hlen]]]].
  - apply generated_nil.
  - cbn. lia.
  - repeat constructor; simpl; intuition discriminate.
  - intros p [<- | [<- | []]]; simpl; tauto.
  - exists df, c'. split; [exact Hrun | exact Hlen].
Defined.

(** ** Degenerate arguments of the loader *)

(** X15: with a day count of zero or an empty tuple of projects the loader
    does not raise: it returns a frame without rows. *)
Theorem load_mock_degenerate (G : Generator) (now : Z) (days : nat)
  (projects : list string) :
  days = 0%nat \/ projects = [] -> load_mock now days projects = Some [].
Proof.
  intros H. rewrite load_mock_frame. f_equal.
  apply length_zero_iff_nil. rewrite frame_of_length.
  destruct H as [-> | ->]; cbn [length]; lia.
Qed.

Lemma load_mock_degenerate_witness :
  @load_mock lcg 1700000000 60 [] = Some [].
Proof.
  apply (load_mock_degenerate lcg 1700000000 60 []). now right.
Defined.
